(** * machine_migrate.js: the migration task of the SmartOS backend

    A shallow embedding of [lib/backends/smartos/tasks/machine_migrate.js]:
    the child-process session ([startChildProcess]), the identity-checked
    kill ([killChild]), the zfs helpers ([zfsErrorStr], [zfsError],
    [deleteSnapshot]), the size estimate ([estimate]), the snapshot list
    of [removeSyncSnapshots] and the synchronous helpers
    ([setupFilesystem], [setDoNotInventory], [setAutoboot]).

    Node's event loop is modelled by explicit event lists: every handler
    is a function from the closure's variables to their new values, and
    the calls made on the task ([finish], [fatal]) are appended to a
    trace.  What the operating system and the zfs commands answer is an
    input of each function.  Logging has no effect on any variable and is
    left out.  The libraries the file calls ([once], vasync's [pipeline]
    and [forEachParallel], assert-plus) are modelled as they are
    documented. *)

From Stdlib Require Import ZArith List String Ascii Bool Lia Strings.Byte DecimalString.
From stdpp Require Import base list.
Import ListNotations.
Open Scope Z_scope.

(* ================================================================== *)
(** ** JavaScript values and string primitives *)
(* ================================================================== *)

(** The payload fields the task reads without validating them. *)
Inductive jsval :=
| JUndefined
| JNull
| JNum (n : Z)
| JStr (s : string).

(** [!v] is [negb (truthy v)]. *)
Definition truthy (v : jsval) : bool :=
  match v with
  | JUndefined | JNull => false
  | JNum n => negb (n =? 0)
  | JStr s => negb (String.eqb s "")
  end.

Definition Z_to_string (n : Z) : string :=
  NilZero.string_of_int (Z.to_int n).

(** [String(v)], also what [+] does to a non-string operand. *)
Definition String_of (v : jsval) : string :=
  match v with
  | JUndefined => "undefined"
  | JNull => "null"
  | JNum n => Z_to_string n
  | JStr s => s
  end.

(** [a === b] where [a] is known to be a string. *)
Definition strict_eq_str (a : string) (b : jsval) : bool :=
  match b with
  | JStr s => String.eqb a s
  | _ => false
  end.

(** [hay.indexOf(needle)]: the first offset at which [needle] starts,
    or -1. *)
Fixpoint indexOf_from (needle hay : string) (i : Z) : Z :=
  if String.prefix needle hay then i
  else match hay with
       | EmptyString => -1
       | String _ rest => indexOf_from needle rest (i + 1)
       end.

Definition indexOf (hay needle : string) : Z := indexOf_from needle hay 0.

(** [s.split(sep)] for a one-character separator: never empty. *)
Fixpoint split (sep : ascii) (s : string) : list string :=
  match s with
  | EmptyString => [EmptyString]
  | String c rest =>
      if Ascii.eqb c sep then EmptyString :: split sep rest
      else match split sep rest with
           | [] => [String c EmptyString]
           | w :: ws => String c w :: ws
           end
  end.

(** A node Buffer is a sequence of bytes. *)
Definition Buffer := list byte.

(** [Buffer.from(s)] and [buf.toString()] on text in the ASCII range. *)
Definition Buffer_from (s : string) : Buffer := list_byte_of_string s.
Definition Buffer_toString (b : Buffer) : string := string_of_list_byte b.

(** [buf.slice(start, end)] with node's clamping: a negative index counts
    from the end, and everything is cut to [0, length]. *)
Definition clamp_index (len i : Z) : Z :=
  if i <? 0 then Z.max (len + i) 0 else Z.min i len.

Definition Buffer_slice (b : Buffer) (start : Z) (stop : option Z) : Buffer :=
  let len := Z.of_nat (length b) in
  let s := clamp_index len start in
  let e := match stop with Some e => clamp_index len e | None => len end in
  take (Z.to_nat (e - s)) (drop (Z.to_nat s) b).

(** [String(x)] for a variable that holds a Buffer or was never
    assigned. *)
Definition String_of_buffer (b : option Buffer) : string :=
  match b with
  | None => "undefined"
  | Some buf => Buffer_toString buf
  end.

(* ================================================================== *)
(** ** The task interface *)
(* ================================================================== *)

(** What [finish] is given. *)
Inductive finish_value :=
| NoValue
| WorkerResult (body : string) (ppid : Z)
| SizeResult (size : Z).

(** An error object: a message and, for the errors [zfsError] builds,
    the [stderr] field set on it. *)
Record js_error := {
  e_message : string;
  e_stderr : option string
}.

(** What [fatal] is given first: a message, or the error (vasync wraps
    the failures of a parallel run in one MultiError). *)
Inductive fatal_value :=
| Msg (s : string)
| MultiError (errors : list js_error).

(** The calls a behaviour makes on its task, in order. *)
Inductive task_call :=
| finish (v : finish_value)
| fatal (what : fatal_value) (detail : option string).

(* ================================================================== *)
(** ** startChildProcess *)
(* ================================================================== *)

Section ChildProcess.

(** [__dirname] and [process.pid] of the agent. *)
Variable dirname : string.
Variable process_pid : Z.

Definition binfn (action : jsval) : string :=
  if strict_eq_str "receive" action
  then (dirname ++ "/../bin/machine-migrate-receive.js")%string
  else (dirname ++ "/../bin/machine-migrate-send.js")%string.

(** The one message the worker sends back. *)
Record worker_result := {
  error : option string;      (* [result.error.message] when [result.error] is set *)
  body : string
}.

(** The closure's variables, the state of the [once] wrapper, and what
    was done to the task and the channel so far. *)
Record session := {
  handledResponse : bool;
  limitedStderr : option Buffer;
  once_called : bool;
  disconnects : nat;
  calls : list task_call
}.

Definition startChildProcess : session :=
  {| handledResponse := false;
     limitedStderr := None;
     once_called := false;
     disconnects := 0;
     calls := [] |}.

Definition ELISION : Buffer := Buffer_from (String "010" ("..." ++ String "010" "")).

(** The function given to [once]. *)
Definition message_handler (s : session) (result : worker_result) : session :=
  let call :=
    match error result with
    | Some m => fatal (Msg m) None
    | None => finish (WorkerResult (body result) process_pid)
    end in
  {| handledResponse := true;
     limitedStderr := limitedStderr s;
     once_called := once_called s;
     disconnects := S (disconnects s);
     calls := calls s ++ [call] |}.

(** [once(fn)]: the first call runs [fn], later calls do nothing. *)
Definition on_message (s : session) (result : worker_result) : session :=
  if once_called s then s
  else message_handler
         {| handledResponse := handledResponse s;
            limitedStderr := limitedStderr s;
            once_called := true;
            disconnects := disconnects s;
            calls := calls s |} result.

(** The [if (!limitedStderr) ... else ...] of the stderr handler: a
    Buffer is an object, so only the unassigned variable is falsy. *)
Definition append_chunk (limited : option Buffer) (buf : Buffer) : Buffer :=
  match limited with
  | None => buf
  | Some old => old ++ buf
  end.

Definition stderr_data (limited : option Buffer) (buf : Buffer) : option Buffer :=
  let joined := append_chunk limited buf in
  if 5000 <? Z.of_nat (length joined)
  then Some (Buffer_slice joined 0 (Some 2500) ++ ELISION
             ++ Buffer_slice joined (-2500) None)
  else Some joined.

Definition on_stderr_data (s : session) (buf : Buffer) : session :=
  {| handledResponse := handledResponse s;
     limitedStderr := stderr_data (limitedStderr s) buf;
     once_called := once_called s;
     disconnects := disconnects s;
     calls := calls s |}.

(** [util.format('%s', v)] of an exit code or a signal name: [null] when
    the process did not end that way. *)
Definition format_code (code : option Z) : string :=
  match code with Some c => Z_to_string c | None => "null" end.

Definition format_signal (signal : option string) : string :=
  match signal with Some sg => sg | None => "null" end.

Definition exit_message (code : option Z) (signal : option string) : string :=
  ("machine-migrate exit error (code " ++ format_code code
   ++ ", signal " ++ format_signal signal ++ ")")%string.

Definition on_exit (s : session) (code : option Z) (signal : option string) : session :=
  if handledResponse s then s
  else {| handledResponse := handledResponse s;
          limitedStderr := limitedStderr s;
          once_called := once_called s;
          disconnects := disconnects s;
          calls := calls s ++ [fatal (Msg (exit_message code signal))
                                     (Some (String_of_buffer (limitedStderr s)))] |}.

(** What the child process can deliver to the handlers. *)
Inductive child_event :=
| message (result : worker_result)
| stdout_data (buf : Buffer)
| stderr_chunk (buf : Buffer)
| exit (code : option Z) (signal : option string)
| disconnect
| child_error (err : string).

Definition deliver (s : session) (ev : child_event) : session :=
  match ev with
  | message result => on_message s result
  | stderr_chunk buf => on_stderr_data s buf
  | exit code signal => on_exit s code signal
  | stdout_data _ | disconnect | child_error _ => s
  end.

Definition run_session (events : list child_event) : session :=
  fold_left deliver events startChildProcess.

(** The stderr handler alone, over the chunks of the stream. *)
Definition capture (chunks : list Buffer) : option Buffer :=
  fold_left stderr_data chunks None.

End ChildProcess.

(* ================================================================== *)
(** ** killChild *)
(* ================================================================== *)

(** What the operating system answers during one call of [killChild]:
    whether each call returns ([None] and [false] stand for a thrown
    exception), and what it returns. *)
Record kill_env := {
  probe_ok : bool;               (* process.kill(pid, 0) *)
  ps_output : option string;     (* execFileSync('/usr/bin/ps', ...) *)
  argv_file : option string;     (* fs.readFileSync('/proc/<pid>/argv') *)
  sigterm_ok : bool              (* process.kill(pid, 'SIGTERM'): a failure is
                                    caught and logged, nothing else *)
}.

Inductive signal_name := SIG0 | SIGTERM.

(** What [killChild] does, in order. *)
Inductive kill_effect :=
| process_kill (pid : jsval) (sig : signal_name)
| execFileSync_ps (args : list string)
| readFileSync (path : string)
| on_task (c : task_call).

Definition ps_args (pid : jsval) : list string :=
  ["-p"; String_of pid; "-o"; "ppid="; "-o"; "zone="]%string.

Definition argv_path (pid : jsval) : string :=
  ("/proc/" ++ String_of pid ++ "/argv")%string.

Definition WORKER_ID : string := "/machine-migrate.js".

Definition killChild (pid ppid : jsval) (env : kill_env) : list kill_effect :=
  if negb (truthy pid) then
    [on_task (fatal (Msg "No PID supplied to kill_migration_process task") None)]
  else
    let t1 := [process_kill pid SIG0] in
    if negb (probe_ok env) then t1 ++ [on_task (finish NoValue)]
    else
      let t2 := t1 ++ [execFileSync_ps (ps_args pid)] in
      match ps_output env with
      | None => t2 ++ [on_task (finish NoValue)]
      | Some buf =>
          let argSplit := split " " buf in
          if negb (match argSplit !! 0%nat with
                   | Some a => strict_eq_str a ppid
                   | None => false
                   end)
          then t2 ++ [on_task (finish NoValue)]
          else if negb (match argSplit !! 1%nat with
                        | Some z => String.eqb z "global"
                        | None => false
                        end)
          then t2 ++ [on_task (finish NoValue)]
          else
            let t3 := t2 ++ [readFileSync (argv_path pid)] in
            match argv_file env with
            | None => t3 ++ [on_task (finish NoValue)]
            | Some argv =>
                if indexOf argv WORKER_ID =? -1
                then t3 ++ [on_task (finish NoValue)]
                else t3 ++ [process_kill pid SIGTERM; on_task (finish NoValue)]
            end
      end.

(** The calls made on the task, and whether SIGTERM was sent. *)
Definition task_calls (t : list kill_effect) : list task_call :=
  omap (fun e => match e with on_task c => Some c | _ => None end) t.

Definition is_sigterm (e : kill_effect) : bool :=
  match e with
  | process_kill _ SIGTERM => true
  | _ => false
  end.

Definition signal_sent (t : list kill_effect) : bool := existsb is_sigterm t.

(** The four identity checks, each as the code tests it. *)
Definition check_liveness (env : kill_env) : bool := probe_ok env.

Definition check_parent (ppid : jsval) (env : kill_env) : bool :=
  match ps_output env with
  | Some buf => match split " " buf !! 0%nat with
                | Some a => strict_eq_str a ppid
                | None => false
                end
  | None => false
  end.

Definition check_zone (env : kill_env) : bool :=
  match ps_output env with
  | Some buf => match split " " buf !! 1%nat with
                | Some z => String.eqb z "global"
                | None => false
                end
  | None => false
  end.

Definition check_argv (env : kill_env) : bool :=
  match argv_file env with
  | Some argv => negb (indexOf argv WORKER_ID =? -1)
  | None => false
  end.

(* ================================================================== *)
(** ** zfs helpers: zfsErrorStr, zfsError, deleteSnapshot *)
(* ================================================================== *)

(** The error [child_process.execFile] hands to its callback, and the
    three arguments of that callback. *)
Record exec_error := {
  killed : bool;
  emessage : string
}.

Record exec_result := {
  err : option exec_error;
  stdout : string;
  stderr : string
}.

(** One call of [child_process.execFile]: [timeout] is [None] when the
    options carry none (node then never kills the command). *)
Record exec_call := {
  cmd : string;
  args : list string;
  timeout : option Z
}.

Definition zfsErrorStr (error : option exec_error) (stderr : string) : string :=
  match error with
  | None => ""
  | Some e =>
      if killed e then "Process killed due to timeout."
      else if negb (String.eqb (emessage e) "") then emessage e
      else stderr
  end.

Definition zfsError (prefixMsg : string) (error : option exec_error)
    (stderr : string) : js_error :=
  {| e_message := (prefixMsg ++ ": " ++ zfsErrorStr error stderr)%string;
     e_stderr := Some stderr |}.

(** [hay.lastIndexOf(needle)]. *)
Fixpoint lastIndexOf_from (needle hay : string) (i best : Z) : Z :=
  let best' := if String.prefix needle hay then i else best in
  match hay with
  | EmptyString => best'
  | String _ rest => lastIndexOf_from needle rest (i + 1) best'
  end.

Definition lastIndexOf (hay needle : string) : Z :=
  lastIndexOf_from needle hay 0 (-1).

Definition FIVE_MINUTES : Z := 5 * 60 * 1000.

Definition NO_SNAPSHOTS : string := "could not find any snapshots to destroy".

(** A function that validates its arguments and then starts a command:
    the assertion that failed, or the call and its callback's result for
    each outcome of the command. *)
Inductive started :=
| Thrown (assertion : string)
| Issued (call : exec_call) (callback : exec_result -> option js_error).

Definition deleteSnapshot_call (snapshot : string) : exec_call :=
  {| cmd := "/usr/sbin/zfs";
     args := ["destroy"; "-r"; snapshot]%string;
     timeout := Some FIVE_MINUTES |}.

(** What the callback of [deleteSnapshot] is given: [None] for
    [callback()]. *)
Definition deleteSnapshot_done (r : exec_result) : option js_error :=
  match err r with
  | Some e =>
      if indexOf (stderr r) NO_SNAPSHOTS =? -1
      then Some (zfsError "zfs snapshot destroy failure" (Some e) (stderr r))
      else None
  | None => None
  end.

Definition deleteSnapshot (snapshot : string) : started :=
  if negb (0 <? Z.of_nat (String.length snapshot))
  then Thrown "snapshot.length > 0"
  else if negb (0 <? lastIndexOf snapshot "@")
  then Thrown "snapshot.lastIndexOf(@) > 0"
  else Issued (deleteSnapshot_call snapshot) deleteSnapshot_done.

(* ================================================================== *)
(** ** estimate: one dataset *)
(* ================================================================== *)

Definition SNAPSHOT_NAME_PREFIX : string := "vm-migrate-estimate".

(** White space as [trim] and the regular expression's [\s] see it, in
    the ASCII range: tab, line feed, vertical tab, form feed, carriage
    return, space. *)
Definition is_space (c : ascii) : bool :=
  let n := nat_of_ascii c in
  ((9 <=? n)%nat && (n <=? 13)%nat) || (n =? 32)%nat.

Definition is_digit (c : ascii) : bool :=
  let n := nat_of_ascii c in
  (48 <=? n)%nat && (n <=? 57)%nat.

Fixpoint trim_start (s : string) : string :=
  match s with
  | EmptyString => EmptyString
  | String c rest => if is_space c then trim_start rest else s
  end.

Fixpoint trim_end (s : string) : string :=
  match s with
  | EmptyString => EmptyString
  | String c rest =>
      match trim_end rest with
      | EmptyString => if is_space c then EmptyString else String c EmptyString
      | t => String c t
      end
  end.

Definition trim (s : string) : string := trim_end (trim_start s).

Fixpoint all_digits (s : string) : bool :=
  match s with
  | EmptyString => true
  | String c rest => is_digit c && all_digits rest
  end.

(** The integer a run of decimal digits denotes. *)
Fixpoint decimal_from (acc : Z) (digits : string) : Z :=
  match digits with
  | EmptyString => acc
  | String c rest => decimal_from (10 * acc + (Z.of_nat (nat_of_ascii c) - 48)) rest
  end.

Definition decimal_value (digits : string) : Z := decimal_from 0 digits.

(** JavaScript's numbers are doubles.  The double nearest to a
    non-negative integer, ties to the even significand: an integer up to
    2^53 is a double itself.  (From 2^1024 on JavaScript has Infinity,
    which is outside this model.) *)
Definition to_double (x : Z) : Z :=
  if x <=? 2 ^ 53 then x
  else
    let e := Z.log2 x - 52 in
    let q := x / 2 ^ e in
    let r := x mod 2 ^ e in
    let half := 2 ^ (e - 1) in
    if (half <? r) || ((r =? half) && Z.odd q)
    then (q + 1) * 2 ^ e
    else q * 2 ^ e.

(** [Number(digits)] for a run of decimal digits. *)
Definition Number (digits : string) : Z := to_double (decimal_value digits).

Arguments to_double : simpl never.
Arguments Number : simpl never.

Definition strip_prefix (p s : string) : option string :=
  if String.prefix p s
  then Some (String.substring (String.length p) (String.length s - String.length p) s)
  else None.

(** [line.match(/^size\s+(\d+)$/)]: the digits matched by the group. *)
Definition match_size (line : string) : option string :=
  match strip_prefix "size" line with
  | Some rest =>
      match rest with
      | String c _ =>
          if is_space c then
            let digits := trim_start rest in
            match digits with
            | EmptyString => None
            | _ => if all_digits digits then Some digits else None
            end
          else None
      | EmptyString => None
      end
  | None => None
  end.

(** The last line of the trimmed output, trimmed. *)
Definition lastLine (stdout : string) : string :=
  trim (List.last (split "010" (trim stdout)) EmptyString).

(** The four functions of the pipeline, and the callback an
    [estimateOneDataset] run is waiting for. *)
Inductive pipeline_func :=
| deletePreviousSnapshot
| createSnapshot
| getEstimate
| cleanupSnapshot.

Inductive waiting :=
| in_func (f : pipeline_func)
| in_deleteCb (original : js_error)
| settled
| uncaught.

Record pipeline := {
  snapshot : string;            (* ctx.snapshot *)
  snapshotCreated : bool;       (* ctx.snapshotCreated *)
  waits : waiting
}.

(** What a callback of the run does to the world outside its [ctx]. *)
Inductive action :=
| execFile (call : exec_call)
| add_size (n : Z)              (* estimatedSize += n *)
| next (e : option js_error)
| throw (assertion : string).

Definition createSnapshot_call (snapshot : string) : exec_call :=
  {| cmd := "/usr/sbin/zfs";
     args := ["snapshot"; "-r"; snapshot]%string;
     timeout := Some FIVE_MINUTES |}.

Definition getEstimate_call (snapshot : string) : exec_call :=
  {| cmd := "/usr/sbin/zfs";
     args := ["send"; "--dryrun"; "--parsable"; "--replicate"; snapshot]%string;
     timeout := Some FIVE_MINUTES |}.

(** A call of [deleteSnapshot(ctx.snapshot, log, cb)] followed by
    [after]: an assertion that fails leaves [after] undone. *)
Definition call_deleteSnapshot (snapshot : string) (created : bool)
    (w : waiting) (after : list action) : pipeline * list action :=
  match deleteSnapshot snapshot with
  | Thrown a =>
      ({| snapshot := snapshot; snapshotCreated := created; waits := uncaught |},
       [throw a])
  | Issued call _ =>
      ({| snapshot := snapshot; snapshotCreated := created; waits := w |},
       execFile call :: after)
  end.

(** [ctx.snapshot] of the run for [dataset]. *)
Definition snapshot_of (dataset : string) : string :=
  (dataset ++ "@" ++ SNAPSHOT_NAME_PREFIX)%string.

Definition estimateOneDataset (dataset : string) : pipeline * list action :=
  call_deleteSnapshot (snapshot_of dataset) false
    (in_func deletePreviousSnapshot) [].

(** [_onEstimateOneDatasetPipelineCb(err)] with an error. *)
Definition onEstimateOneDatasetPipelineCb (p : pipeline) (e : js_error)
    : pipeline * list action :=
  if snapshotCreated p
  then call_deleteSnapshot (snapshot p) (snapshotCreated p)
         (in_deleteCb e) [next (Some e)]
  else ({| snapshot := snapshot p; snapshotCreated := snapshotCreated p;
           waits := settled |},
        [next (Some e)]).

(** The callback of the command the run waits for, given the command's
    outcome. *)
Definition complete (p : pipeline) (r : exec_result) : pipeline * list action :=
  match waits p with
  | in_func deletePreviousSnapshot =>
      match deleteSnapshot_done r with
      | Some e => onEstimateOneDatasetPipelineCb p e
      | None =>
          ({| snapshot := snapshot p; snapshotCreated := snapshotCreated p;
              waits := in_func createSnapshot |},
           [execFile (createSnapshot_call (snapshot p))])
      end
  | in_func createSnapshot =>
      match err r with
      | Some e =>
          onEstimateOneDatasetPipelineCb p
            (zfsError "zfs snapshot failure" (Some e) (stderr r))
      | None =>
          ({| snapshot := snapshot p; snapshotCreated := true;
              waits := in_func getEstimate |},
           [execFile (getEstimate_call (snapshot p))])
      end
  | in_func getEstimate =>
      match err r with
      | Some e =>
          onEstimateOneDatasetPipelineCb p
            (zfsError "zfs snapshot error" (Some e) (stderr r))
      | None =>
          match match_size (lastLine (stdout r)) with
          | None =>
              onEstimateOneDatasetPipelineCb p
                {| e_message := "Unable to get zfs send estimate";
                   e_stderr := None |}
          | Some digits =>
              let '(p', acts) :=
                call_deleteSnapshot (snapshot p) (snapshotCreated p)
                  (in_func cleanupSnapshot) [] in
              (p', add_size (Number digits) :: acts)
          end
      end
  | in_func cleanupSnapshot =>
      match deleteSnapshot_done r with
      | Some e => onEstimateOneDatasetPipelineCb p e
      | None =>
          ({| snapshot := snapshot p; snapshotCreated := snapshotCreated p;
              waits := settled |},
           [next None])
      end
  | in_deleteCb original =>
      ({| snapshot := snapshot p; snapshotCreated := snapshotCreated p;
          waits := settled |},
       [next (Some original)])
  | settled | uncaught => (p, [])
  end.

(* ================================================================== *)
(** ** estimate: all datasets in parallel *)
(* ================================================================== *)

(** [payload.vm]: [disks] holds each disk's [zfs_filesystem], and is
    [None] when [vm.disks] is not an array. *)
Record vm_t := {
  brand : jsval;
  zfs_filesystem : string;
  disks : option (list string)
}.

Definition datasets_of (vm : vm_t) : list string :=
  zfs_filesystem vm ::
    (if strict_eq_str "kvm" (brand vm)
     then match disks vm with Some ds => ds | None => [] end
     else []).

(** vasync's [forEachParallel] keeps one operation per input, asserts
    that an operation is pending when its callback is invoked, and calls
    the final callback once every operation has been called back: with
    a MultiError of the failures if there are any. *)
Inductive op_status :=
| op_pending
| op_ok
| op_fail (e : js_error).

Record estimate_state := {
  estimatedSize : Z;
  pipelines : list pipeline;
  operations : list op_status;
  ndone : nat;
  crashed : bool;                 (* an assertion was thrown and not caught *)
  issued : list exec_call;        (* the commands started so far *)
  task : list task_call
}.

Definition failures (ops : list op_status) : list js_error :=
  omap (fun o => match o with op_fail e => Some e | _ => None end) ops.

(** [_onEstimateComplete(err)]. *)
Definition onEstimateComplete (st : estimate_state) (errors : list js_error)
    : estimate_state :=
  let call :=
    match errors with
    | [] => finish (SizeResult (estimatedSize st))
    | _ => fatal (MultiError errors) None
    end in
  {| estimatedSize := estimatedSize st; pipelines := pipelines st;
     operations := operations st; ndone := ndone st; crashed := crashed st;
     issued := issued st; task := task st ++ [call] |}.

Definition crash (st : estimate_state) : estimate_state :=
  {| estimatedSize := estimatedSize st; pipelines := pipelines st;
     operations := operations st; ndone := ndone st; crashed := true;
     issued := issued st; task := task st |}.

(** The callback [forEachParallel] gives to the [i]-th run. *)
Definition doneOne (i : nat) (e : option js_error) (st : estimate_state)
    : estimate_state :=
  match operations st !! i with
  | Some op_pending =>
      let ops := <[i := match e with Some x => op_fail x | None => op_ok end]>
                   (operations st) in
      let st' :=
        {| estimatedSize := estimatedSize st; pipelines := pipelines st;
           operations := ops; ndone := S (ndone st); crashed := crashed st;
           issued := issued st; task := task st |} in
      if (S (ndone st) <? length ops)%nat then st'
      else onEstimateComplete st' (failures ops)
  | _ => crash st
  end.

Definition perform (i : nat) (st : estimate_state) (a : action) : estimate_state :=
  if crashed st then st
  else match a with
       | execFile call =>
           {| estimatedSize := estimatedSize st; pipelines := pipelines st;
              operations := operations st; ndone := ndone st;
              crashed := crashed st;
              issued := issued st ++ [call]; task := task st |}
       | add_size n =>
           {| estimatedSize := to_double (estimatedSize st + n);
              pipelines := pipelines st;
              operations := operations st; ndone := ndone st;
              crashed := crashed st;
              issued := issued st; task := task st |}
       | next e => doneOne i e st
       | throw _ => crash st
       end.

Definition set_pipeline (i : nat) (p : pipeline) (st : estimate_state)
    : estimate_state :=
  {| estimatedSize := estimatedSize st;
     pipelines := <[i := p]> (pipelines st);
     operations := operations st; ndone := ndone st; crashed := crashed st;
     issued := issued st; task := task st |}.

(** The outcome of each command one run can start. *)
Record dataset_run := {
  deletePrevious_result : exec_result;
  createSnapshot_result : exec_result;
  getEstimate_result : exec_result;
  cleanupSnapshot_result : exec_result;
  deleteCb_result : exec_result
}.

Definition result_for (run : dataset_run) (w : waiting) : option exec_result :=
  match w with
  | in_func deletePreviousSnapshot => Some (deletePrevious_result run)
  | in_func createSnapshot => Some (createSnapshot_result run)
  | in_func getEstimate => Some (getEstimate_result run)
  | in_func cleanupSnapshot => Some (cleanupSnapshot_result run)
  | in_deleteCb _ => Some (deleteCb_result run)
  | settled | uncaught => None
  end.

(** The command the [i]-th run waits for completes.  Without a pending
    command, or after an uncaught exception, nothing happens. *)
Definition step (world : list dataset_run) (st : estimate_state) (i : nat)
    : estimate_state :=
  if crashed st then st
  else match pipelines st !! i, world !! i with
       | Some p, Some run =>
           match result_for run (waits p) with
           | Some r =>
               let '(p', acts) := complete p r in
               fold_left (perform i) acts (set_pipeline i p' st)
           | None => st
           end
       | _, _ => st
       end.

(** [forEachParallel] calls [estimateOneDataset] on the inputs in order. *)
Definition start_dataset (st : estimate_state) (dataset : string) : estimate_state :=
  if crashed st then st
  else
    let '(p, acts) := estimateOneDataset dataset in
    let i := length (pipelines st) in
    fold_left (perform i) acts
      {| estimatedSize := estimatedSize st;
         pipelines := pipelines st ++ [p];
         operations := operations st; ndone := ndone st; crashed := crashed st;
         issued := issued st; task := task st |}.

Definition estimate (vm : vm_t) : estimate_state :=
  let datasets := datasets_of vm in
  fold_left start_dataset datasets
    {| estimatedSize := 0;
       pipelines := [];
       operations := replicate (length datasets) op_pending;
       ndone := 0; crashed := false; issued := []; task := [] |}.

(** The task from its start through the completions [schedule] lists,
    each naming the run whose command completes. *)
Definition run_estimate (vm : vm_t) (world : list dataset_run)
    (schedule : list nat) : estimate_state :=
  fold_left (step world) schedule (estimate vm).

(** One run on its own, through [n] completions: the actions in order. *)
Fixpoint run_pipeline (run : dataset_run) (n : nat) (p : pipeline) : list action :=
  match n with
  | O => []
  | S n' =>
      match result_for run (waits p) with
      | Some r => let '(p', acts) := complete p r in acts ++ run_pipeline run n' p'
      | None => []
      end
  end.

Definition estimateOneDataset_actions (dataset : string) (run : dataset_run)
    : list action :=
  let '(p, acts) := estimateOneDataset dataset in
  acts ++ run_pipeline run 6 p.

Definition nexts (acts : list action) : list (option js_error) :=
  omap (fun a => match a with next e => Some e | _ => None end) acts.

(* ================================================================== *)
(** ** removeSyncSnapshots: listSnapshots *)
(* ================================================================== *)

Definition listSnapshots_call (dataset : string) : exec_call :=
  {| cmd := "/usr/sbin/zfs";
     args := ["list"; "-t"; "snapshot"; "-r"; "-H"; "-o"; "name"; dataset]%string;
     timeout := None |}.

Definition listSnapshots_done (r : exec_result) : option js_error :=
  match err r with
  | Some e => Some (zfsError "zfs list failure" (Some e) (stderr r))
  | None => None
  end.

(* ================================================================== *)
(** ** setupFilesystem, setDoNotInventory, setAutoboot *)
(* ================================================================== *)

Definition is_hex (c : ascii) : bool :=
  let n := nat_of_ascii c in
  is_digit c || ((65 <=? n)%nat && (n <=? 70)%nat)
             || ((97 <=? n)%nat && (n <=? 102)%nat).

(** The shape assert-plus checks in [assert.uuid]: groups of 8, 4, 4, 4
    and 12 hexadecimal digits with dashes between them. *)
Fixpoint uuid_shape (groups : list nat) (left : nat) (s : string) : bool :=
  match s with
  | EmptyString => (left =? 0)%nat && match groups with [] => true | _ => false end
  | String c rest =>
      match left with
      | O => match groups with
             | g :: gs => Ascii.eqb c "-" && uuid_shape gs g rest
             | [] => false
             end
      | S k => is_hex c && uuid_shape groups k rest
      end
  end.

Definition assert_uuid (v : jsval) : bool :=
  match v with
  | JStr s => uuid_shape [4; 4; 4; 12]%nat 8%nat s
  | _ => false
  end.

Definition assert_string (v : jsval) : bool :=
  match v with
  | JStr _ => true
  | _ => false
  end.

(** [payload] of the three helpers: [value] is read by the last two. *)
Record payload_t := {
  vm_uuid : jsval;
  value : jsval
}.

(** [child_process.execFileSync] either returns the output or throws. *)
Inductive sync_result :=
| returned (output : Buffer)
| threw (ex : exec_error).

(** A helper's run: the assertion that failed, or the command it ran
    and the calls it made on the task. *)
Inductive helper_run :=
| AssertionError (what : string)
| Ran (command : string) (arguments : list string) (on_task_calls : list task_call).

(** [buf = child_process.execFileSync(cmd, args)] inside [try]: the
    new value of [buf], and the exception when the call throws; the
    assignment happens only when the call returns. *)
Definition assign_execFileSync (buf : option Buffer) (outcome : sync_result)
    : option Buffer * option exec_error :=
  match outcome with
  | returned output => (Some output, None)
  | threw ex => (buf, Some ex)
  end.

(** The [try]/[catch] the three helpers share, from [var buf] on. *)
Definition try_execFileSync (command : string) (arguments : list string)
    (outcome : sync_result) : helper_run :=
  let buf : option Buffer := None in
  let '(buf, ex) := assign_execFileSync buf outcome in
  match ex with
  | Some _ => Ran command arguments [fatal (Msg (String_of_buffer buf)) None]
  | None => Ran command arguments [finish NoValue]
  end.

Definition setupFilesystem (payload : payload_t) (outcome : sync_result) : helper_run :=
  if negb (assert_uuid (vm_uuid payload)) then AssertionError "payload.vm_uuid"
  else
    let vmUuid := String_of (vm_uuid payload) in
    try_execFileSync "/usr/sbin/zfs" ["mount"; "zones/" ++ vmUuid]%string outcome.

Definition setDoNotInventory (payload : payload_t) (outcome : sync_result) : helper_run :=
  if negb (assert_uuid (vm_uuid payload)) then AssertionError "payload.vm_uuid"
  else if negb (assert_string (value payload)) then AssertionError "payload.value"
  else
    let vmUuid := String_of (vm_uuid payload) in
    let value := String_of (value payload) in
    try_execFileSync "/usr/sbin/vmadm"
      ["update"; vmUuid; "do_not_inventory=" ++ value]%string outcome.

Definition setAutoboot (payload : payload_t) (outcome : sync_result) : helper_run :=
  if negb (assert_uuid (vm_uuid payload)) then AssertionError "payload.vm_uuid"
  else if negb (assert_string (value payload)) then AssertionError "payload.value"
  else
    let vmUuid := String_of (vm_uuid payload) in
    let value := String_of (value payload) in
    try_execFileSync "/usr/sbin/vmadm"
      ["update"; vmUuid; "autoboot=" ++ value]%string outcome.

Definition helper_calls (r : helper_run) : list task_call :=
  match r with
  | AssertionError _ => []
  | Ran _ _ cs => cs
  end.

(* ================================================================== *)
(** ** start *)
(* ================================================================== *)

(** What [start] does with the task: the behaviour it binds and calls,
    or the message it fails the task with. *)
Inductive behaviour :=
| do_killChild
| do_startChildProcess
| do_estimate
| do_removeSyncSnapshots
| do_setupFilesystem
| do_setDoNotInventory
| do_setAutoboot
| do_fatal (msg : string).

Definition start (action : jsval) : behaviour :=
  if strict_eq_str "kill_migration_process" action then do_killChild
  else if strict_eq_str "sync" action || strict_eq_str "receive" action
  then do_startChildProcess
  else if strict_eq_str "estimate" action then do_estimate
  else if strict_eq_str "remove-sync-snapshots" action then do_removeSyncSnapshots
  else if strict_eq_str "setup-filesystem" action then do_setupFilesystem
  else if strict_eq_str "set-do-not-inventory" action then do_setDoNotInventory
  else if strict_eq_str "set-autoboot" action then do_setAutoboot
  else do_fatal ("Unexpected payload.action: " ++ String_of action)%string.

(* ================================================================== *)
(** ** removeSyncSnapshots *)
(* ================================================================== *)

Definition MARKER_PATH : string := "/lib/sdc/.sdc-test-no-production-data".

(** [s.replace(pat, rep)] for a string [pat] and a [rep] without ["$"]:
    the first occurrence of [pat] is replaced. *)
Fixpoint replace_first (pat rep s : string) : string :=
  if String.prefix pat s
  then (rep ++ String.substring (String.length pat)
                 (String.length s - String.length pat) s)%string
  else match s with
       | EmptyString => EmptyString
       | String c rest => String c (replace_first pat rep rest)
       end.

(** The fields of the payload [removeSyncSnapshots] reads: [vm_own_uuid]
    is [payload.vm.uuid], [target_vm_uuid] is
    [payload.migrationTask.record.target_vm_uuid]. *)
Record remove_payload := {
  remove_vm_uuid : jsval;
  remove_vm : vm_t;
  vm_own_uuid : jsval;
  target_vm_uuid : jsval
}.

(** How far [removeSyncSnapshots] gets before it starts the parallel
    runs: an assertion fails, the task is failed, or the runs are started
    on these datasets. *)
Inductive remove_start :=
| remove_asserted (what : string)
| remove_fatal (msg : string)
| remove_started (datasets : list string).

(** [fileMarker] is whether [fs.accessSync] finds the marker file. *)
Definition removeSyncSnapshots (payload : remove_payload) (fileMarker : bool)
    : remove_start :=
  if negb (assert_uuid (remove_vm_uuid payload))
  then remove_asserted "payload.vm_uuid"
  else if negb (assert_uuid (target_vm_uuid payload))
  then remove_asserted "payload.migrationTask.record.target_vm_uuid"
  else
    let datasets := datasets_of (remove_vm payload) in
    if negb (strict_eq_str (String_of (remove_vm_uuid payload)) (vm_own_uuid payload))
    then
      if negb fileMarker
      then remove_fatal
             ("Cannot perform migration uuid override - "
              ++ "as non-production marker file is missing: " ++ MARKER_PATH)%string
      else remove_started
             (map (replace_first (String_of (vm_own_uuid payload))
                                 (String_of (remove_vm_uuid payload)))
                  datasets)
    else remove_started datasets.

(** [ctx.snapshots] of [listSnapshots]: the lines of the trimmed output
    that are not empty. *)
Definition parse_snapshots (stdout : string) : list string :=
  List.filter (fun name => negb (String.eqb name ""))
              (split "010" (trim stdout)).

(** [destroySnapshots]: vasync's [forEachPipeline] calls
    [deleteSnapshot] on the snapshots one after the other and stops at
    the first error; [results i] is the outcome of the [i]-th command. *)
Fixpoint destroySnapshots (results : nat -> exec_result) (i : nat)
    (snapshots : list string) : list action :=
  match snapshots with
  | [] => [next None]
  | snapshot :: rest =>
      match deleteSnapshot snapshot with
      | Thrown a => [throw a]
      | Issued call callback =>
          execFile call ::
            match callback (results i) with
            | Some e => [next (Some e)]
            | None => destroySnapshots results (S i) rest
            end
      end
  end.

(** [destroySyncSnapshots]: the pipeline of [listSnapshots] and
    [destroySnapshots] for one dataset. *)
Definition destroySyncSnapshots (dataset : string) (listed : exec_result)
    (results : nat -> exec_result) : list action :=
  execFile (listSnapshots_call dataset) ::
    match listSnapshots_done listed with
    | Some e => [next (Some e)]
    | None => destroySnapshots results 0 (parse_snapshots (stdout listed))
    end.

(** The commands among the actions, in order. *)
Definition commands (acts : list action) : list exec_call :=
  omap (fun a => match a with execFile call => Some call | _ => None end) acts.

(* ================================================================== *)
(** ** node's path.basename and path.join *)
(* ================================================================== *)

Module path.

Fixpoint strip_trailing_slashes (p : string) : string :=
  match p with
  | EmptyString => EmptyString
  | String c rest =>
      match strip_trailing_slashes rest with
      | EmptyString => if Ascii.eqb c "/" then EmptyString else String c EmptyString
      | t => String c t
      end
  end.

(** [path.basename(p)]: what follows the last slash, trailing slashes
    apart. *)
Definition basename (p : string) : string :=
  List.last (split "/" (strip_trailing_slashes p)) EmptyString.

(** The segments [path.normalize] keeps: empty ones and ["."] are
    dropped, [".."] removes the segment before it (at the root of an
    absolute path there is none, and it is dropped). [kept] is in
    reverse. *)
Fixpoint normalize_segments (allowAboveRoot : bool) (kept segs : list string)
    : list string :=
  match segs with
  | [] => rev kept
  | seg :: rest =>
      if String.eqb seg "" || String.eqb seg "." then
        normalize_segments allowAboveRoot kept rest
      else if String.eqb seg ".." then
        match kept with
        | top :: kept' =>
            if String.eqb top ".."
            then normalize_segments allowAboveRoot (seg :: kept) rest
            else normalize_segments allowAboveRoot kept' rest
        | [] =>
            if allowAboveRoot
            then normalize_segments allowAboveRoot [seg] rest
            else normalize_segments allowAboveRoot [] rest
        end
      else normalize_segments allowAboveRoot (seg :: kept) rest
  end.

Fixpoint join_segments (segs : list string) : string :=
  match segs with
  | [] => EmptyString
  | [seg] => seg
  | seg :: rest => (seg ++ "/" ++ join_segments rest)%string
  end.

Definition ends_with_slash (p : string) : bool :=
  match List.last (split "/" p) "x"%string with
  | EmptyString => negb (String.eqb p "")
  | _ => false
  end.

Definition normalize (p : string) : string :=
  match p with
  | EmptyString => "."
  | String c _ =>
      let isAbsolute := Ascii.eqb c "/" in
      let body := join_segments
                    (normalize_segments (negb isAbsolute) [] (split "/" p)) in
      match body with
      | EmptyString =>
          if isAbsolute then "/" else if ends_with_slash p then "./" else "."
      | _ =>
          let body := if ends_with_slash p then (body ++ "/")%string else body in
          if isAbsolute then String "/" body else body
      end
  end.

(** [path.join(a, b)]: the non-empty arguments joined by a slash, then
    normalized. *)
Definition join (a b : string) : string :=
  match a, b with
  | EmptyString, EmptyString => "."
  | EmptyString, _ => normalize b
  | _, EmptyString => normalize a
  | _, _ => normalize (a ++ "/" ++ b)
  end.

End path.

(* ================================================================== *)
(** ** agentsshar_install.js: start *)
(* ================================================================== *)

Module AgentsSharInstall.

(** What the task does, in order: [backendCommon.downloadFile] and
    [shared.installAgentsShar] are the backend's, and are called with
    these arguments. *)
Inductive effect :=
| downloadFile (url sharFile : string)
| installAgentsShar (serverUuid sharFile : string)
| progress (percent : Z)
| on_task (c : task_call).

Inductive run :=
| AssertionError (what : string)
| Ran (effects : list effect).

(** [ctx.sharFile]. *)
Definition sharFile (UUID url : string) : string :=
  path.join "/var/tmp/"
    ("agentsshar.download." ++ UUID ++ path.basename url)%string.

(** [_onInstallPipelineComplete(err)], [err] given by its message. *)
Definition onInstallPipelineComplete (err : option string) : list effect :=
  progress 100 ::
    match err with
    | Some msg =>
        [on_task (fatal (Msg ("Failed to install agentsshar: " ++ msg)%string) None)]
    | None => [on_task (finish NoValue)]
    end.

(** [start]: [downloaded] and [installed] are the errors the two
    backend calls hand to their callbacks, [None] for success. *)
Definition start (req_id url UUID : jsval) (downloaded installed : option string)
    : run :=
  if negb (assert_string req_id) then AssertionError "self.req.req_id"
  else if negb (assert_string url) then AssertionError "self.req.params.url"
  else if negb (assert_uuid UUID) then AssertionError "self.sysinfo.UUID"
  else
    let file := sharFile (String_of UUID) (String_of url) in
    Ran (downloadFile (String_of url) file :: progress 50 ::
         match downloaded with
         | Some e => onInstallPipelineComplete (Some e)
         | None =>
             installAgentsShar (String_of UUID) file :: progress 75 ::
               match installed with
               | Some e => onInstallPipelineComplete (Some e)
               | None => onInstallPipelineComplete None
               end
         end).

Definition effects_of (r : run) : list effect :=
  match r with
  | AssertionError _ => []
  | Ran es => es
  end.

Definition progress_values (es : list effect) : list Z :=
  omap (fun e => match e with progress p => Some p | _ => None end) es.

Definition task_calls (es : list effect) : list task_call :=
  omap (fun e => match e with on_task c => Some c | _ => None end) es.

Definition installs (es : list effect) : list effect :=
  List.filter (fun e => match e with installAgentsShar _ _ => true | _ => false end) es.

End AgentsSharInstall.

(* ================================================================== *)
(** ** run-servers.js: runServer *)
(* ================================================================== *)

Module RunServers.

(** [inst] and [ctx.logname] of [runServer], which asserts that
    [opts.serverUuid] is a uuid first. *)
Definition inst (serverUuid : string) : string :=
  match split "-" serverUuid !! 0%nat with
  | Some first => first
  | None => "undefined"
  end.

Definition logname (serverUuid : string) : option string :=
  if assert_uuid (JStr serverUuid)
  then Some ("cn-agent-" ++ inst serverUuid)%string
  else None.

End RunServers.

(* ================================================================== *)
(** ** The vocabulary of the properties *)
(* ================================================================== *)

(** The buffer the handler keeps once the stream [s] is longer than
    5000 bytes. *)
Definition collapsed (s : Buffer) : Buffer :=
  take (Z.to_nat 2500) s ++ ELISION
    ++ drop (Z.to_nat (Z.of_nat (length s) - 2500)) s.

(** The stderr data among the events, in order. *)
Definition stderr_chunks (events : list child_event) : list Buffer :=
  omap (fun ev => match ev with stderr_chunk buf => Some buf | _ => None end)
       events.

(** The kinds of event the handlers tell apart. *)
Definition is_message (ev : child_event) : bool :=
  match ev with message _ => true | _ => false end.

Definition is_stderr_chunk (ev : child_event) : bool :=
  match ev with stderr_chunk _ => true | _ => false end.

Definition is_exit (ev : child_event) : bool :=
  match ev with exit _ _ => true | _ => false end.

(** No end of [w] starts [suf]. *)
Fixpoint no_tail_starts (w suf : string) : bool :=
  match w with
  | EmptyString => true
  | String _ w' => negb (String.prefix w suf) && no_tail_starts w' suf
  end.

(** The output of [zfs send --dryrun --parsable]: a line for the stream
    and the line with the size, fields separated by tabs. *)
Definition parsable_output (snapshot size : string) : string :=
  ("full" ++ String "009" (snapshot ++ String "009" (size ++ String "010"
     ("size" ++ String "009" (size ++ String "010" "")))))%string.

(** A run in which no previous snapshot exists and every other command
    succeeds, the dry run printing [size]. *)
Definition successful_run (size : string) : dataset_run :=
  let succeeded := {| err := None; stdout := ""%string; stderr := ""%string |} in
  {| deletePrevious_result :=
       {| err := Some {| killed := false; emessage := "Command failed"%string |};
          stdout := ""%string;
          stderr := "could not find any snapshots to destroy"%string |};
     createSnapshot_result := succeeded;
     getEstimate_result :=
       {| err := None;
          stdout := parsable_output "zones/abc@vm-migrate-estimate" size;
          stderr := ""%string |};
     cleanupSnapshot_result := succeeded;
     deleteCb_result := succeeded |}.

(** The size a run contributes when all of its commands succeed: the
    integer on the last line of the dry run's output. *)
Definition run_size (run : dataset_run) : option Z :=
  match deleteSnapshot_done (deletePrevious_result run),
        err (createSnapshot_result run),
        err (getEstimate_result run),
        deleteSnapshot_done (cleanupSnapshot_result run) with
  | None, None, None, None =>
      match match_size (lastLine (stdout (getEstimate_result run))) with
      | Some digits => Some (decimal_value digits)
      | None => None
      end
  | _, _, _, _ => None
  end.

(** The sum of a list of sizes. *)
Fixpoint sum_sizes (sizes : list Z) : Z :=
  match sizes with
  | [] => 0
  | n :: rest => n + sum_sizes rest
  end.

(** A run whose commands all succeed is described by its snapshot, its
    size, and how many of its four commands have completed. *)
Record cell := {
  c_snapshot : string;
  c_size : Z;
  c_done : nat
}.

(** What the task holds for such a run: its [ctx] and the callback it
    waits for, its operation in [forEachParallel], what it has added to
    [estimatedSize], and whether it has called [next]. *)
Definition cell_pipeline (c : cell) : pipeline :=
  {| snapshot := c_snapshot c;
     snapshotCreated := (2 <=? c_done c)%nat;
     waits := match c_done c with
              | 0%nat => in_func deletePreviousSnapshot
              | 1%nat => in_func createSnapshot
              | 2%nat => in_func getEstimate
              | 3%nat => in_func cleanupSnapshot
              | _ => settled
              end |}.

Definition cell_operation (c : cell) : op_status :=
  if (4 <=? c_done c)%nat then op_ok else op_pending.

Definition cell_counted (c : cell) : Z :=
  if (3 <=? c_done c)%nat then c_size c else 0.

Definition cell_finished (c : cell) : Z :=
  if (4 <=? c_done c)%nat then 1 else 0.

(** One more command of the run has completed. *)
Definition advance_cell (c : cell) : cell :=
  {| c_snapshot := c_snapshot c; c_size := c_size c;
     c_done := if (c_done c <? 4)%nat then S (c_done c) else c_done c |}.

Definition advance (cells : list cell) (i : nat) : list cell :=
  match cells !! i with
  | Some c => <[i := advance_cell c]> cells
  | None => cells
  end.

(** The state of the task while every command succeeds. *)
Record describes (cells : list cell) (st : estimate_state) : Prop := {
  d_pipelines : pipelines st = cell_pipeline <$> cells;
  d_operations : operations st = cell_operation <$> cells;
  d_size : estimatedSize st = sum_sizes (cell_counted <$> cells);
  d_ndone : Z.of_nat (ndone st) = sum_sizes (cell_finished <$> cells);
  d_crashed : crashed st = false;
  d_task : task st = if (ndone st =? length cells)%nat
                     then [finish (SizeResult (estimatedSize st))]
                     else []
}.

(** The run's snapshot name passes the assertions of [deleteSnapshot]. *)
Definition snapshot_ok (c : cell) : Prop :=
  deleteSnapshot (c_snapshot c)
  = Issued (deleteSnapshot_call (c_snapshot c)) deleteSnapshot_done.

(** The runs right after [estimate] has started them. *)
Definition initial_cell (dataset : string) (size : Z) : cell :=
  {| c_snapshot := snapshot_of dataset; c_size := size; c_done := 0 |}.

Definition initial_cells (datasets : list string) (sizes : list Z) : list cell :=
  zip_with initial_cell datasets sizes.

(** The calls that finish the task, and those that fail it. *)
Definition is_finish (c : task_call) : bool :=
  match c with finish _ => true | fatal _ _ => false end.

(** The call the message handler makes for a result. *)
Definition completion (process_pid : Z) (result : worker_result) : task_call :=
  match error result with
  | Some m => fatal (Msg m) None
  | None => finish (WorkerResult (body result) process_pid)
  end.

(** Whether [c] occurs in [s]. *)
Fixpoint has_char (c : ascii) (s : string) : bool :=
  match s with
  | EmptyString => false
  | String d rest => Ascii.eqb d c || has_char c rest
  end.

(** No character of [s] is white space. *)
Fixpoint no_space (s : string) : bool :=
  match s with
  | EmptyString => true
  | String c rest => negb (is_space c) && no_space rest
  end.

(** The lines of a text in which every line ends with a line feed. *)
Fixpoint unlines (names : list string) : string :=
  match names with
  | [] => EmptyString
  | name :: rest => (name ++ String "010" (unlines rest))%string
  end.

(** What holds of the calls made so far, in every state a session can
    reach: the task was finished at most once, only by the message
    handler, and with this process's pid as [ppid]. *)
Definition finished_by_handler (process_pid : Z) (s : session) : Prop :=
  (once_called s = false -> List.filter is_finish (calls s) = []) /\
  (length (List.filter is_finish (calls s)) <= 1)%nat /\
  Forall (fun c => is_finish c = true ->
                   exists body, c = finish (WorkerResult body process_pid))
         (calls s).

(** The words of a text joined by [sep]. *)
Fixpoint joined (sep : ascii) (words : list string) : string :=
  match words with
  | [] => EmptyString
  | [w] => w
  | w :: rest => (w ++ String sep (joined sep rest))%string
  end.


(* ================================================================== *)
(** * Properties *)
(* ================================================================== *)

(** ** The captured stderr *)

Lemma ELISION_length : Z.of_nat (length ELISION) = 5.
Proof. reflexivity. Qed.

Lemma Buffer_slice_head (b : Buffer) :
  2500 <= Z.of_nat (length b) ->
  Buffer_slice b 0 (Some 2500) = take (Z.to_nat 2500) b.
Proof.
  intros Hlen. unfold Buffer_slice, clamp_index.
  replace (0 <? 0) with false by reflexivity.
  replace (2500 <? 0) with false by reflexivity.
  cbv zeta. rewrite !Z.min_l by lia.
  rewrite Z.sub_0_r. change (Z.to_nat 0) with 0%nat. rewrite drop_0.
  reflexivity.
Qed.

Lemma Buffer_slice_tail (b : Buffer) :
  2500 <= Z.of_nat (length b) ->
  Buffer_slice b (-2500) None = drop (Z.to_nat (Z.of_nat (length b) - 2500)) b.
Proof.
  intros Hlen. unfold Buffer_slice, clamp_index.
  replace (-2500 <? 0) with true by reflexivity.
  cbv zeta. rewrite Z.max_l by lia.
  apply take_ge. rewrite length_drop. lia.
Qed.

Lemma stderr_data_long (limited : option Buffer) (buf : Buffer) :
  5000 < Z.of_nat (length (append_chunk limited buf)) ->
  stderr_data limited buf = Some (collapsed (append_chunk limited buf)).
Proof.
  intros Hlen. unfold stderr_data. cbv zeta.
  apply Z.ltb_lt in Hlen. rewrite Hlen. apply Z.ltb_lt in Hlen.
  rewrite Buffer_slice_head, Buffer_slice_tail by lia. reflexivity.
Qed.

Lemma stderr_data_short (limited : option Buffer) (buf : Buffer) :
  Z.of_nat (length (append_chunk limited buf)) <= 5000 ->
  stderr_data limited buf = Some (append_chunk limited buf).
Proof.
  intros Hlen. unfold stderr_data. cbv zeta.
  apply Z.ltb_ge in Hlen. rewrite Hlen. reflexivity.
Qed.

Lemma collapsed_length (s : Buffer) :
  5000 < Z.of_nat (length s) -> Z.of_nat (length (collapsed s)) = 5005.
Proof.
  intros Hlen. unfold collapsed.
  rewrite !length_app, length_take, length_drop.
  pose proof ELISION_length. lia.
Qed.

(** Collapsing again after more input keeps the head and follows the
    tail of the stream. *)
Lemma collapsed_app (s c : Buffer) :
  5000 < Z.of_nat (length s) ->
  collapsed (collapsed s ++ c) = collapsed (s ++ c).
Proof.
  intros Hlen.
  pose proof (collapsed_length s Hlen) as Hc.
  pose proof ELISION_length as He.
  unfold collapsed at 1 3. f_equal; [| f_equal].
  - unfold collapsed. rewrite <- !app_assoc.
    rewrite take_app_le by (rewrite length_take; lia).
    rewrite take_take. rewrite take_app_le by lia.
    f_equal; lia.
  - rewrite !length_app. rewrite Nat2Z.inj_add, Hc.
    unfold collapsed. rewrite <- !app_assoc.
    assert (Hhd : Z.of_nat (length (take (Z.to_nat 2500) s)) = 2500)
      by (rewrite length_take; lia).
    replace (Z.to_nat (5005 + Z.of_nat (length c) - 2500))
      with (length (take (Z.to_nat 2500) s)
            + (length ELISION + length c))%nat by lia.
    rewrite !drop_app_add.
    replace (Z.to_nat (Z.of_nat (length s + length c) - 2500))
      with (Z.to_nat (Z.of_nat (length s) - 2500) + length c)%nat by lia.
    rewrite <- drop_drop.
    rewrite (drop_app_le s) by lia. reflexivity.
Qed.

(** What the handler holds after the chunks of a stream. *)
Lemma capture_spec (chunks : list Buffer) :
  capture chunks =
    match chunks with
    | [] => None
    | _ => if 5000 <? Z.of_nat (length (concat chunks))
           then Some (collapsed (concat chunks))
           else Some (concat chunks)
    end.
Proof.
  induction chunks as [| c chunks IH] using rev_ind; [reflexivity |].
  unfold capture in *. rewrite fold_left_app. cbn [fold_left].
  rewrite IH. rewrite concat_app. cbn [concat]. rewrite app_nil_r.
  destruct (chunks ++ [c]) eqn:Heq; [destruct chunks; discriminate |].
  clear Heq. destruct chunks as [| c0 chunks'].
  - cbn [concat app].
    destruct (5000 <? Z.of_nat (length c)) eqn:Hc.
    + apply Z.ltb_lt in Hc. now apply (stderr_data_long None).
    + apply Z.ltb_ge in Hc. now apply (stderr_data_short None).
  - set (s := concat (c0 :: chunks')) in *.
    destruct (5000 <? Z.of_nat (length s)) eqn:Hs.
    + apply Z.ltb_lt in Hs.
      assert (Hsc : 5000 < Z.of_nat (length (s ++ c)))
        by (rewrite length_app; lia).
      apply Z.ltb_lt in Hsc as Hsc'. rewrite Hsc'.
      rewrite stderr_data_long.
      * cbn [append_chunk]. now rewrite collapsed_app.
      * cbn [append_chunk]. rewrite length_app.
        pose proof (collapsed_length s Hs). lia.
    + destruct (5000 <? Z.of_nat (length (s ++ c))) eqn:Hsc.
      * apply Z.ltb_lt in Hsc. now apply (stderr_data_long (Some s)).
      * apply Z.ltb_ge in Hsc. now apply (stderr_data_short (Some s)).
Qed.

(** The session's [limitedStderr] is the stderr handler run over the
    stderr data delivered so far; no other event touches it. *)
Lemma session_capture (process_pid : Z) (events : list child_event) :
  limitedStderr (run_session process_pid events) = capture (stderr_chunks events).
Proof.
  unfold run_session, capture.
  assert (Hgen : forall s : session,
             limitedStderr (fold_left (deliver process_pid) events s)
             = fold_left stderr_data (stderr_chunks events) (limitedStderr s)).
  { induction events as [| ev events IH]; intros s; [reflexivity |].
    cbn [fold_left]. rewrite IH.
    destruct ev; simpl; try reflexivity.
    - unfold on_message. now destruct (once_called s).
    - unfold on_exit. now destruct (handledResponse s). }
  apply Hgen.
Qed.

Lemma stderr_chunks_app (events more : list child_event) :
  stderr_chunks (events ++ more) = stderr_chunks events ++ stderr_chunks more.
Proof.
  induction events as [| ev events IH]; [reflexivity |].
  destruct ev; simpl; try exact IH. now rewrite <- IH.
Qed.

(** C4, as the claim states it, fails: after one chunk of 5001 bytes the
    session retains 5005 bytes, more than 5000. *)
Lemma capture_5001_keeps_5005 :
  exists b : Buffer,
    limitedStderr
      (run_session 4242 [stderr_chunk (replicate (Z.to_nat 5001) "x"%byte)])
    = Some b /\
    5000 < Z.of_nat (length b).
Proof.
  exists (collapsed (replicate (Z.to_nat 5001) "x"%byte)). split.
  - vm_compute. reflexivity.
  - vm_compute. reflexivity.
Qed.

(** C4 (amended): once the stderr data delivered to the session adds up
    to more than 5000 bytes, the captured output is the first 2500 bytes
    of the stream, the marker, and the last 2500 bytes of the stream; it
    is 5005 bytes long, and stays so whatever is delivered afterwards. *)
Theorem capture_bounded (process_pid : Z) (events : list child_event) :
  5000 < Z.of_nat (length (concat (stderr_chunks events))) ->
  limitedStderr (run_session process_pid events)
  = Some (collapsed (concat (stderr_chunks events))) /\
  Z.of_nat (length (collapsed (concat (stderr_chunks events)))) = 5005 /\
  forall more : list child_event,
    exists b : Buffer,
      limitedStderr (run_session process_pid (events ++ more)) = Some b
      /\ Z.of_nat (length b) = 5005.
Proof.
  intros Hlen.
  assert (Hspec : forall evs : list child_event,
             5000 < Z.of_nat (length (concat (stderr_chunks evs))) ->
             limitedStderr (run_session process_pid evs)
             = Some (collapsed (concat (stderr_chunks evs)))).
  { intros evs Hevs. rewrite session_capture, capture_spec.
    destruct (stderr_chunks evs) as [| c cs]; [simpl in Hevs; lia |].
    apply Z.ltb_lt in Hevs. now rewrite Hevs. }
  split; [now apply Hspec |]. split; [now apply collapsed_length |].
  intros more.
  assert (Hmore : 5000 < Z.of_nat (length (concat (stderr_chunks (events ++ more))))).
  { rewrite stderr_chunks_app, concat_app, length_app. lia. }
  exists (collapsed (concat (stderr_chunks (events ++ more)))). split.
  - now apply Hspec.
  - now apply collapsed_length.
Qed.

Lemma capture_bounded_witness :
  let events := [stderr_chunk (replicate (Z.to_nat 3000) "a"%byte);
                 stdout_data (Buffer_from "sending");
                 stderr_chunk (replicate (Z.to_nat 3000) "b"%byte)] in
  limitedStderr (run_session 4242 events)
  = Some (collapsed (concat (stderr_chunks events))) /\
  Z.of_nat (length (collapsed (concat (stderr_chunks events)))) = 5005 /\
  forall more : list child_event,
    exists b : Buffer,
      limitedStderr (run_session 4242 (events ++ more)) = Some b
      /\ Z.of_nat (length b) = 5005.
Proof.
  intro events. apply (capture_bounded 4242 events).
  vm_compute. reflexivity.
Defined.

(** ** The session's completion *)

Section Session.

Variable process_pid : Z.

Local Abbreviation run := (fold_left (deliver process_pid)).

(** A message is the only event that touches the [once] wrapper and the
    flag; stderr data is the only one that touches the capture. *)
Ltac handler_cases s :=
  cbn; unfold on_message, on_exit, on_stderr_data;
  try destruct (once_called s) eqn:?; try destruct (handledResponse s) eqn:?;
  cbn; auto.

Lemma deliver_keeps_flags (s : session) (ev : child_event) :
  is_message ev = false ->
  handledResponse (deliver process_pid s ev) = handledResponse s /\
  once_called (deliver process_pid s ev) = once_called s.
Proof.
  intros Hev. destruct ev; try discriminate; handler_cases s.
Qed.

Lemma deliver_keeps_capture (s : session) (ev : child_event) :
  is_stderr_chunk ev = false ->
  limitedStderr (deliver process_pid s ev) = limitedStderr s.
Proof.
  intros Hev. destruct ev; try discriminate; handler_cases s.
Qed.

Lemma deliver_keeps_calls (s : session) (ev : child_event) :
  is_message ev = false -> is_exit ev = false ->
  calls (deliver process_pid s ev) = calls s.
Proof.
  intros Hm He. destruct ev; try discriminate; handler_cases s.
Qed.

Lemma run_keeps_flags (events : list child_event) (s : session) :
  forallb (fun ev => negb (is_message ev)) events = true ->
  handledResponse (run events s) = handledResponse s /\
  once_called (run events s) = once_called s.
Proof.
  revert s. induction events as [| ev events IH]; intros s Hq; cbn; auto.
  cbn in Hq. apply andb_true_iff in Hq as [Hev Hq].
  apply negb_true_iff in Hev.
  destruct (IH (deliver process_pid s ev) Hq) as [-> ->].
  now apply deliver_keeps_flags.
Qed.

Lemma run_keeps_capture (events : list child_event) (s : session) :
  forallb (fun ev => negb (is_stderr_chunk ev)) events = true ->
  limitedStderr (run events s) = limitedStderr s.
Proof.
  revert s. induction events as [| ev events IH]; intros s Hq; cbn; auto.
  cbn in Hq. apply andb_true_iff in Hq as [Hev Hq].
  apply negb_true_iff in Hev.
  rewrite (IH _ Hq). now apply deliver_keeps_capture.
Qed.

Lemma run_keeps_calls (events : list child_event) (s : session) :
  forallb (fun ev => negb (is_message ev) && negb (is_exit ev)) events = true ->
  calls (run events s) = calls s.
Proof.
  revert s. induction events as [| ev events IH]; intros s Hq; cbn; auto.
  cbn in Hq. apply andb_true_iff in Hq as [Hev Hq].
  apply andb_true_iff in Hev as [Hm He].
  apply negb_true_iff in Hm, He.
  rewrite (IH _ Hq). now apply deliver_keeps_calls.
Qed.

(** Once a message was handled, nothing calls the task again. *)
Lemma handled_is_final (events : list child_event) (s : session) :
  handledResponse s = true -> once_called s = true ->
  calls (run events s) = calls s.
Proof.
  revert s. induction events as [| ev events IH]; intros s Hh Ho; cbn; auto.
  assert (Hst : handledResponse (deliver process_pid s ev) = true /\
                once_called (deliver process_pid s ev) = true /\
                calls (deliver process_pid s ev) = calls s).
  { destruct ev; handler_cases s; congruence. }
  destruct Hst as (Hh' & Ho' & Hc'). now rewrite IH, Hc'.
Qed.

(** The function given to [once] runs at most once: the channel is
    disconnected at most once over any sequence of events. *)
Lemma message_handler_runs_at_most_once (events : list child_event) :
  (disconnects (run_session process_pid events) <= 1)%nat.
Proof.
  unfold run_session.
  assert (H : forall s, (disconnects s <= 1)%nat ->
                (once_called s = false -> disconnects s = 0%nat) ->
                (disconnects (run events s) <= 1)%nat).
  { induction events as [| ev events IH]; intros s Hd Ho; cbn; auto.
    apply IH.
    - destruct ev; handler_cases s; rewrite Ho by reflexivity; lia.
    - destruct ev; handler_cases s; intros;
        first [congruence | apply Ho; reflexivity]. }
  apply H; cbn; [lia | reflexivity].
Qed.

(** A result message that arrives before any exit completes the task
    exactly once, whatever follows it. *)
Lemma message_first_completes_once (before after : list child_event)
    (result : worker_result) :
  forallb (fun ev => negb (is_message ev) && negb (is_exit ev)) before = true ->
  exists c : task_call,
    calls (run_session process_pid (before ++ message result :: after)) = [c].
Proof.
  intros Hq. unfold run_session. rewrite fold_left_app. cbn [fold_left].
  assert (Hm : forallb (fun ev => negb (is_message ev)) before = true).
  { clear -Hq. induction before as [| ev before IH]; cbn in *; auto.
    apply andb_true_iff in Hq as [Hev Hq].
    apply andb_true_iff in Hev as [-> _]. now apply IH. }
  destruct (run_keeps_flags before startChildProcess Hm) as [Hh Ho].
  pose proof (run_keeps_calls before startChildProcess Hq) as Hc.
  cbn in Hh, Ho, Hc.
  set (s := run before startChildProcess) in *.
  rewrite handled_is_final.
  - cbn. unfold on_message. rewrite Ho. cbn. rewrite Hc. cbn. eauto.
  - cbn. unfold on_message. now rewrite Ho.
  - cbn. unfold on_message. now rewrite Ho.
Qed.

End Session.

(** C1 fails on the code when the exit event is delivered
    before the result message: the exit handler fails the task, and the
    message handler, which never looks at what the exit handler did,
    completes it a second time. *)
Theorem exit_then_message_completes_twice :
  calls (run_session 4242
           [exit (Some 1) None; message {| error := None; body := "{}"%string |}])
  = [fatal (Msg "machine-migrate exit error (code 1, signal null)"%string)
           (Some "undefined"%string);
     finish (WorkerResult "{}"%string 4242)].
Proof. reflexivity. Qed.

(** C9: when the worker exits and neither a result message nor stderr
    data was delivered before, the exit handler fails the task with the
    exit message and the detail ["undefined"]. *)
Theorem exit_without_stderr_reports_undefined (process_pid : Z)
    (before : list child_event) (code : option Z) (signal : option string) :
  forallb (fun ev => negb (is_message ev) && negb (is_stderr_chunk ev)) before = true ->
  calls (run_session process_pid (before ++ [exit code signal]))
  = calls (run_session process_pid before)
      ++ [fatal (Msg (exit_message code signal)) (Some "undefined"%string)].
Proof.
  intros Hq. unfold run_session. rewrite fold_left_app. cbn [fold_left deliver].
  assert (Hm : forallb (fun ev => negb (is_message ev)) before = true /\
               forallb (fun ev => negb (is_stderr_chunk ev)) before = true).
  { clear -Hq. induction before as [| ev before IH]; cbn in *; auto.
    apply andb_true_iff in Hq as [Hev Hq].
    apply andb_true_iff in Hev as [-> ->]. now apply IH. }
  destruct Hm as [Hm Hs].
  destruct (run_keeps_flags process_pid before startChildProcess Hm) as [Hh _].
  pose proof (run_keeps_capture process_pid before startChildProcess Hs) as Hc.
  cbn in Hh, Hc. unfold on_exit. rewrite Hh. cbn. now rewrite Hc.
Qed.

Lemma exit_without_stderr_reports_undefined_witness :
  calls (run_session 4242 ([stdout_data (Buffer_from "sending"%string); disconnect]
                            ++ [exit None (Some "SIGKILL"%string)]))
  = calls (run_session 4242 [stdout_data (Buffer_from "sending"%string); disconnect])
      ++ [fatal (Msg (exit_message None (Some "SIGKILL"%string))) (Some "undefined"%string)].
Proof.
  apply (exit_without_stderr_reports_undefined 4242
           [stdout_data (Buffer_from "sending"%string); disconnect]).
  reflexivity.
Defined.

(** ** killChild *)

(** With a pid, [killChild] finishes the task once and without an
    error, and sends SIGTERM exactly when the four checks pass. *)
Lemma killChild_spec (pid ppid : jsval) (env : kill_env) :
  truthy pid = true ->
  task_calls (killChild pid ppid env) = [finish NoValue] /\
  signal_sent (killChild pid ppid env)
  = check_liveness env && check_parent ppid env && check_zone env
      && check_argv env.
Proof.
  intros Hpid. unfold killChild, check_liveness, check_parent, check_zone, check_argv.
  rewrite Hpid. cbn [negb].
  destruct (probe_ok env); cbn [negb andb]; [| split; reflexivity].
  destruct (ps_output env) as [buf |]; [| split; reflexivity].
  destruct (split " "%char buf !! 0%nat) as [a |];
    [destruct (strict_eq_str a ppid) |]; cbn [negb andb];
    try (split; reflexivity).
  destruct (split " "%char buf !! 1%nat) as [z |];
    [destruct (String.eqb z "global"%string) |]; cbn [negb andb];
    try (split; reflexivity).
  destruct (argv_file env) as [argv |]; [| split; reflexivity].
  destruct (indexOf argv WORKER_ID =? -1); split; reflexivity.
Qed.

(** C3: with a pid supplied, the task finishes exactly once and with no
    error whatever the operating system answers (also when SIGTERM
    cannot be delivered); SIGTERM is sent if and only if the liveness
    probe, the parent pid, the zone and the argv check all pass, so a
    single failed check means no signal. *)
Theorem killChild_sends_only_when_verified (pid ppid : jsval) (env : kill_env) :
  truthy pid = true ->
  task_calls (killChild pid ppid env) = [finish NoValue] /\
  (signal_sent (killChild pid ppid env) = true <->
   check_liveness env = true /\ check_parent ppid env = true /\
   check_zone env = true /\ check_argv env = true) /\
  (check_liveness env = false \/ check_parent ppid env = false \/
   check_zone env = false \/ check_argv env = false ->
   signal_sent (killChild pid ppid env) = false).
Proof.
  intros Hpid. destruct (killChild_spec pid ppid env Hpid) as [Hcalls Hsig].
  split; [exact Hcalls |]. rewrite Hsig. split.
  - rewrite !andb_true_iff. tauto.
  - intros [H | [H | [H | H]]]; rewrite H;
      repeat first [reflexivity | rewrite andb_false_r | rewrite andb_false_l].
Qed.

Lemma killChild_sends_only_when_verified_witness :
  let env := {| probe_ok := true; ps_output := Some "4242 global"%string;
                argv_file := Some "node /opt/bin/machine-migrate.js"%string;
                sigterm_ok := false |} in
  task_calls (killChild (JNum 977) (JStr "4242"%string) env) = [finish NoValue] /\
  (signal_sent (killChild (JNum 977) (JStr "4242"%string) env) = true <->
   check_liveness env = true /\ check_parent (JStr "4242"%string) env = true /\
   check_zone env = true /\ check_argv env = true) /\
  (check_liveness env = false \/ check_parent (JStr "4242"%string) env = false \/
   check_zone env = false \/ check_argv env = false ->
   signal_sent (killChild (JNum 977) (JStr "4242"%string) env) = false).
Proof.
  intro env. apply (killChild_sends_only_when_verified (JNum 977) (JStr "4242"%string) env).
  reflexivity.
Defined.

(** ** Searching a path for the worker's name *)

Lemma prefix_app_miss (suf d : string) :
  forall w : string,
    no_tail_starts w suf = true ->
    String.prefix w d = false ->
    String.prefix w (d ++ suf) = false.
Proof.
  induction d as [| c d IH]; intros w Htails Hmiss.
  - destruct w as [| a w]; [discriminate |].
    cbn [no_tail_starts] in Htails. apply andb_true_iff in Htails as [Hw _].
    now apply negb_true_iff in Hw.
  - destruct w as [| a w]; [discriminate |].
    cbn [no_tail_starts] in Htails. apply andb_true_iff in Htails as [_ Hw].
    cbn [append String.prefix] in *.
    destruct (ascii_dec a c); [now apply IH | reflexivity].
Qed.

Lemma indexOf_from_cons (w : string) (c : ascii) (hay : string) (i : Z) :
  indexOf_from w (String c hay) i
  = if String.prefix w (String c hay) then i else indexOf_from w hay (i + 1).
Proof. reflexivity. Qed.

Lemma indexOf_from_miss_shift (w hay : string) :
  forall i j : Z,
    0 <= i -> indexOf_from w hay i = -1 -> indexOf_from w hay j = -1.
Proof.
  induction hay as [| c hay IH]; intros i j Hi Hmiss.
  - cbn [indexOf_from] in *.
    destruct (String.prefix w ""); [lia | reflexivity].
  - rewrite indexOf_from_cons in *.
    destruct (String.prefix w (String c hay)); [lia |].
    apply (IH (i + 1)); [lia | assumption].
Qed.

(** A needle that occurs neither in [d] nor in [suf], and none of whose
    ends starts [suf], does not occur in [d ++ suf]. *)
Lemma indexOf_app_miss (w suf d : string) :
  no_tail_starts w suf = true ->
  indexOf suf w = -1 ->
  indexOf d w = -1 ->
  indexOf (d ++ suf) w = -1.
Proof.
  intros Htails Hsuf.
  assert (Hgen : forall i, 0 <= i -> indexOf_from w d i = -1 ->
                   indexOf_from w (d ++ suf) i = -1).
  { induction d as [| c d IH]; intros i Hi Hd.
    - cbn [append]. now apply (indexOf_from_miss_shift w suf 0).
    - cbn [append]. rewrite indexOf_from_cons in *.
      destruct (String.prefix w (String c d)) eqn:Hp; [lia |].
      pose proof (prefix_app_miss suf (String c d) w Htails Hp) as Hp'.
      cbn [append] in Hp'. rewrite Hp'. apply IH; [lia | assumption]. }
  intros Hmiss. apply Hgen; [lia | exact Hmiss].
Qed.

(** The worker's name occurs in a spawn path only if it occurs in the
    directory the agent is installed in. *)
Lemma binfn_lacks_WORKER_ID (dirname : string) (action : jsval) :
  indexOf dirname WORKER_ID = -1 ->
  indexOf (binfn dirname action) WORKER_ID = -1.
Proof.
  intros Hdir. unfold binfn.
  destruct (strict_eq_str "receive" action);
    apply indexOf_app_miss; auto; reflexivity.
Qed.

(** C8: the check looks for ["/machine-migrate.js"], which is in neither
    spawn path (the directory of the agent apart); so for a process
    whose argv is the path the session spawns, the kill task finishes
    without an error and sends no signal. *)
Theorem killChild_spares_spawned_worker (dirname : string)
    (action pid ppid : jsval) (env : kill_env) :
  indexOf dirname WORKER_ID = -1 ->
  truthy pid = true ->
  argv_file env = Some (binfn dirname action) ->
  indexOf (binfn dirname action) WORKER_ID = -1 /\
  task_calls (killChild pid ppid env) = [finish NoValue] /\
  signal_sent (killChild pid ppid env) = false.
Proof.
  intros Hdir Hpid Hargv.
  pose proof (binfn_lacks_WORKER_ID dirname action Hdir) as Hmiss.
  destruct (killChild_spec pid ppid env Hpid) as [Hcalls Hsig].
  repeat split; auto.
  rewrite Hsig. unfold check_argv. rewrite Hargv, Hmiss. cbn.
  now rewrite andb_false_r.
Qed.

Lemma killChild_spares_spawned_worker_witness :
  let dirname := "/opt/smartdc/agents/lib/node_modules/cn-agent/lib/backends/smartos/tasks"%string in
  let env := {| probe_ok := true; ps_output := Some "4242 global"%string;
                argv_file := Some (binfn dirname (JStr "receive"));
                sigterm_ok := true |} in
  indexOf (binfn dirname (JStr "receive")) WORKER_ID = -1 /\
  task_calls (killChild (JNum 977) (JStr "4242") env) = [finish NoValue] /\
  signal_sent (killChild (JNum 977) (JStr "4242") env) = false.
Proof.
  intros dirname env.
  apply (killChild_spares_spawned_worker dirname (JStr "receive") (JNum 977)
           (JStr "4242") env); reflexivity.
Defined.

(** ** deleteSnapshot and the commands' timeouts *)



(** C5 fails on the code for the snapshot list: [listSnapshots]
    gives [execFile] no options, so that command has no timeout, while
    delete, create and the dry run carry 300000 ms and a command killed
    by its timeout is reported as "Process killed due to timeout.". *)
Theorem listSnapshots_has_no_timeout (dataset snapshot : string) :
  timeout (listSnapshots_call dataset) = None /\
  timeout (deleteSnapshot_call snapshot) = Some 300000 /\
  timeout (createSnapshot_call snapshot) = Some 300000 /\
  timeout (getEstimate_call snapshot) = Some 300000 /\
  (forall (e : exec_error) (stderr : string),
     killed e = true ->
     zfsErrorStr (Some e) stderr = "Process killed due to timeout."%string).
Proof.
  repeat split. intros e stderr Hk. unfold zfsErrorStr. now rewrite Hk.
Qed.

(** ** The estimate of one dataset *)

(** After a failure with the snapshot created, the pipeline's callback
    starts the delete and calls [next] with the error at once; the
    delete's callback calls [next] with the same error again, whatever
    the delete's own outcome. *)
Lemma compensation_calls_next_twice (p : pipeline) (e : js_error)
    (r : exec_result) :
  snapshotCreated p = true ->
  deleteSnapshot (snapshot p) = Issued (deleteSnapshot_call (snapshot p))
                                  deleteSnapshot_done ->
  fst (onEstimateOneDatasetPipelineCb p e)
  = {| snapshot := snapshot p; snapshotCreated := true; waits := in_deleteCb e |} /\
  snd (onEstimateOneDatasetPipelineCb p e)
  = [execFile (deleteSnapshot_call (snapshot p)); next (Some e)] /\
  snd (complete (fst (onEstimateOneDatasetPipelineCb p e)) r) = [next (Some e)].
Proof.
  intros Hc Hd. unfold onEstimateOneDatasetPipelineCb, call_deleteSnapshot.
  rewrite Hc, Hd. cbn. auto.
Qed.

(** C2 fails on the code: when the dry run fails after the
    snapshot was created, the pipeline's callback starts the delete and
    then falls through to [next(err)], and the delete's callback calls
    [next(err)] once more, so [next] gets the original error twice (the
    first time before the delete has completed). *)
Theorem failed_estimate_calls_next_twice :
  let succeeded := {| err := None; stdout := ""%string; stderr := ""%string |} in
  let busy := {| err := Some {| killed := false; emessage := "Command failed"%string |};
                 stdout := ""%string; stderr := "dataset is busy"%string |} in
  let run := {| deletePrevious_result := succeeded;
                createSnapshot_result := succeeded;
                getEstimate_result :=
                  {| err := None; stdout := "full zones/abc 12"%string;
                     stderr := ""%string |};
                cleanupSnapshot_result := succeeded;
                deleteCb_result := busy |} in
  let original := {| e_message := "Unable to get zfs send estimate"%string;
                     e_stderr := None |} in
  estimateOneDataset_actions "zones/abc" run
  = [execFile (deleteSnapshot_call "zones/abc@vm-migrate-estimate");
     execFile (createSnapshot_call "zones/abc@vm-migrate-estimate");
     execFile (getEstimate_call "zones/abc@vm-migrate-estimate");
     execFile (deleteSnapshot_call "zones/abc@vm-migrate-estimate");
     next (Some original);
     next (Some original)] /\
  nexts (estimateOneDataset_actions "zones/abc" run)
  = [Some original; Some original].
Proof. split; reflexivity. Qed.

(** ** The synchronous helpers *)

(** C10: when the command of [setupFilesystem], [setDoNotInventory] or
    [setAutoboot] throws, the task is failed with the message
    ["undefined"]: [buf] was never assigned. *)
Theorem sync_helpers_report_undefined (payload : payload_t) (ex : exec_error) :
  assert_uuid (vm_uuid payload) = true ->
  helper_calls (setupFilesystem payload (threw ex))
  = [fatal (Msg "undefined") None] /\
  (assert_string (value payload) = true ->
   helper_calls (setDoNotInventory payload (threw ex))
   = [fatal (Msg "undefined") None] /\
   helper_calls (setAutoboot payload (threw ex))
   = [fatal (Msg "undefined") None]).
Proof.
  intros Huuid. unfold setupFilesystem, setDoNotInventory, setAutoboot.
  rewrite Huuid. cbn [negb]. split; [reflexivity |].
  intros Hval. rewrite Hval. split; reflexivity.
Qed.

Lemma sync_helpers_report_undefined_witness :
  let payload := {| vm_uuid := JStr "0e07ab09-d725-436f-884a-759fa3ed7183";
                    value := JStr "true" |} in
  let ex := {| killed := false;
               emessage := "Command failed: /usr/sbin/zfs mount"%string |} in
  helper_calls (setupFilesystem payload (threw ex))
  = [fatal (Msg "undefined") None] /\
  (assert_string (value payload) = true ->
   helper_calls (setDoNotInventory payload (threw ex))
   = [fatal (Msg "undefined") None] /\
   helper_calls (setAutoboot payload (threw ex))
   = [fatal (Msg "undefined") None]).
Proof.
  intros payload ex. apply (sync_helpers_report_undefined payload ex).
  reflexivity.
Defined.

(** ** The estimate of all datasets *)

Lemma to_double_exact (x : Z) : x <= 2 ^ 53 -> to_double x = x.
Proof.
  intros Hx. unfold to_double. apply Z.leb_le in Hx. now rewrite Hx.
Qed.

Lemma decimal_from_nonneg (digits : string) :
  forall acc : Z,
    all_digits digits = true -> 0 <= acc -> 0 <= decimal_from acc digits.
Proof.
  induction digits as [| c digits IH]; intros acc Hd Hacc; [exact Hacc |].
  cbn [all_digits] in Hd. apply andb_true_iff in Hd as [Hc Hd].
  cbn [decimal_from]. apply IH; [exact Hd |].
  unfold is_digit in Hc. apply andb_true_iff in Hc as [Hlo _].
  apply Nat.leb_le in Hlo. lia.
Qed.

Lemma match_size_digits (line digits : string) :
  match_size line = Some digits -> all_digits digits = true.
Proof.
  unfold match_size. destruct (strip_prefix "size" line) as [rest |]; [| discriminate].
  destruct rest as [| c rest]; [discriminate |].
  destruct (is_space c); [| discriminate].
  destruct (trim_start (String c rest)) as [| d ds]; [discriminate |].
  destruct (all_digits (String d ds)) eqn:Hd; [| discriminate].
  now intros [= <-].
Qed.

Lemma run_size_Some (run : dataset_run) (n : Z) :
  run_size run = Some n ->
  deleteSnapshot_done (deletePrevious_result run) = None /\
  err (createSnapshot_result run) = None /\
  err (getEstimate_result run) = None /\
  (exists digits,
     match_size (lastLine (stdout (getEstimate_result run))) = Some digits /\
     decimal_value digits = n) /\
  deleteSnapshot_done (cleanupSnapshot_result run) = None /\
  0 <= n.
Proof.
  unfold run_size. intros H.
  destruct (deleteSnapshot_done (deletePrevious_result run)); [discriminate |].
  destruct (err (createSnapshot_result run)); [discriminate |].
  destruct (err (getEstimate_result run)); [discriminate |].
  destruct (deleteSnapshot_done (cleanupSnapshot_result run)); [discriminate |].
  destruct (match_size _) as [digits |] eqn:Hm; [| discriminate].
  injection H as <-. repeat split; eauto.
  apply decimal_from_nonneg; [| lia]. now apply match_size_digits in Hm.
Qed.

Lemma sum_sizes_insert (g : cell -> Z) (cells : list cell) (i : nat) (c c' : cell) :
  cells !! i = Some c ->
  sum_sizes (g <$> <[i := c']> cells) = sum_sizes (g <$> cells) - g c + g c'.
Proof.
  revert i. induction cells as [| x cells IH]; intros [| i] Hc; try discriminate.
  - change (Some x = Some c) in Hc. injection Hc as ->.
    change (g c' + sum_sizes (g <$> cells)
            = g c + sum_sizes (g <$> cells) - g c + g c'). lia.
  - change (cells !! i = Some c) in Hc.
    change (g x + sum_sizes (g <$> <[i := c']> cells)
            = g x + sum_sizes (g <$> cells) - g c + g c').
    rewrite (IH i Hc). lia.
Qed.

Lemma fmap_insert_same {B : Type} (g : cell -> B) (cells : list cell) (i : nat)
    (c c' : cell) :
  cells !! i = Some c -> g c' = g c ->
  g <$> <[i := c']> cells = g <$> cells.
Proof.
  intros Hc Hg. rewrite list_fmap_insert, Hg.
  apply list_insert_id. now rewrite list_lookup_fmap, Hc.
Qed.

Lemma sum_sizes_cons (g : cell -> Z) (c : cell) (cells : list cell) :
  sum_sizes (g <$> c :: cells) = g c + sum_sizes (g <$> cells).
Proof. reflexivity. Qed.

Lemma finished_bounds (cells : list cell) :
  0 <= sum_sizes (cell_finished <$> cells) <= Z.of_nat (length cells).
Proof.
  induction cells as [| c cells IH]; [simpl; lia |].
  rewrite sum_sizes_cons, length_cons.
  unfold cell_finished at 1 3. destruct (4 <=? c_done c)%nat; lia.
Qed.

Lemma unfinished_cell_bounds (cells : list cell) (i : nat) (c : cell) :
  cells !! i = Some c -> cell_finished c = 0 ->
  sum_sizes (cell_finished <$> cells) < Z.of_nat (length cells).
Proof.
  revert i. induction cells as [| x cells IH]; intros [| i] Hc Hf; try discriminate.
  - change (Some x = Some c) in Hc. injection Hc as ->.
    rewrite sum_sizes_cons, length_cons, Hf.
    pose proof (finished_bounds cells). lia.
  - change (cells !! i = Some c) in Hc. pose proof (IH i Hc Hf).
    rewrite sum_sizes_cons, length_cons.
    unfold cell_finished at 1. destruct (4 <=? c_done x)%nat; lia.
Qed.

Lemma counted_le_sizes (cells : list cell) :
  Forall (fun c => 0 <= c_size c) cells ->
  0 <= sum_sizes (cell_counted <$> cells) <= sum_sizes (c_size <$> cells).
Proof.
  induction 1 as [| c cells Hc Hcs IH]; [simpl; lia |].
  rewrite !sum_sizes_cons. unfold cell_counted at 1 3.
  destruct (3 <=? c_done c)%nat; lia.
Qed.

Lemma uncounted_cell_bounds (cells : list cell) (i : nat) (c : cell) :
  Forall (fun c => 0 <= c_size c) cells ->
  cells !! i = Some c -> cell_counted c = 0 ->
  0 <= sum_sizes (cell_counted <$> cells) /\
  sum_sizes (cell_counted <$> cells) + c_size c <= sum_sizes (c_size <$> cells).
Proof.
  intros Hnn. revert i.
  induction Hnn as [| x cells Hx Hcs IH]; intros [| i] Hc Hf; try discriminate.
  - change (Some x = Some c) in Hc. injection Hc as ->.
    rewrite !sum_sizes_cons, Hf. pose proof (counted_le_sizes cells Hcs). lia.
  - change (cells !! i = Some c) in Hc. destruct (IH i Hc Hf) as [H0 H1].
    rewrite !sum_sizes_cons. unfold cell_counted at 1 3.
    destruct (3 <=? c_done x)%nat; lia.
Qed.

Lemma sizes_nonneg (world : list dataset_run) (cells : list cell) :
  Forall2 (fun run c => run_size run = Some (c_size c)) world cells ->
  Forall (fun c => 0 <= c_size c) cells.
Proof.
  induction 1 as [| run c world cells Hrun Hw IH]; constructor; [| exact IH].
  now apply run_size_Some in Hrun.
Qed.

Lemma no_failures (cells : list cell) :
  failures (cell_operation <$> cells) = [].
Proof.
  induction cells as [| c cells IH]; [reflexivity |].
  simpl. unfold failures in IH. unfold cell_operation at 1.
  destruct (4 <=? c_done c)%nat; simpl; exact IH.
Qed.

Lemma doneOne_pending (i : nat) (st : estimate_state) :
  operations st !! i = Some op_pending ->
  doneOne i None st
  = let st' :=
      {| estimatedSize := estimatedSize st; pipelines := pipelines st;
         operations := <[i := op_ok]> (operations st); ndone := S (ndone st);
         crashed := crashed st; issued := issued st; task := task st |} in
    if (S (ndone st) <? length (operations st))%nat then st'
    else onEstimateComplete st' (failures (<[i := op_ok]> (operations st))).
Proof.
  intros Hop. unfold doneOne. rewrite Hop. now rewrite length_insert.
Qed.

Ltac describe_fields :=
  constructor;
  cbn [estimatedSize pipelines operations ndone crashed issued task];
  rewrite ?length_insert; auto.

Lemma step_describes (world : list dataset_run) (cells : list cell)
    (st : estimate_state) (i : nat) :
  Forall2 (fun run c => run_size run = Some (c_size c)) world cells ->
  Forall snapshot_ok cells ->
  sum_sizes (c_size <$> cells) <= 2 ^ 53 ->
  describes cells st ->
  describes (advance cells i) (step world st i).
Proof.
  intros Hw Hok Hrange [Hp Ho Hs Hn Hc Ht].
  pose proof (sizes_nonneg world cells Hw) as Hnn.
  destruct st as [est pipes ops nd cr iss tk]. simpl in *. subst cr.
  unfold step, advance. cbn [crashed pipelines].
  rewrite Hp at 1. rewrite list_lookup_fmap.
  destruct (cells !! i) as [c |] eqn:Hci; simpl.
  2: { constructor; simpl; auto. }
  destruct (Forall2_lookup_r _ _ _ _ _ Hw Hci) as (run & Hrun & Hsize).
  rewrite Hrun.
  apply run_size_Some in Hsize as (H1 & H2 & H3 & (digits & H4 & H5) & H6 & H7).
  pose proof (Forall_lookup_1 _ _ _ _ Hok Hci) as Hsnap.
  unfold snapshot_ok in Hsnap.
  assert (Hlen : length (<[i := advance_cell c]> cells) = length cells)
    by apply length_insert.
  destruct c as [snap n k]; simpl in *.
  destruct k as [| [| [| [| k]]]].
  - unfold complete. cbn. rewrite H1. cbn.
    describe_fields.
    + subst pipes. now rewrite list_fmap_insert.
    + subst ops. symmetry. now apply (fmap_insert_same _ _ _ _ _ Hci).
    + rewrite (sum_sizes_insert _ _ _ _ _ Hci). cbn. lia.
    + rewrite (sum_sizes_insert _ _ _ _ _ Hci). cbn. lia.
  - unfold complete. cbn. rewrite H2. cbn.
    describe_fields.
    + subst pipes. now rewrite list_fmap_insert.
    + subst ops. symmetry. now apply (fmap_insert_same _ _ _ _ _ Hci).
    + rewrite (sum_sizes_insert _ _ _ _ _ Hci). cbn. lia.
    + rewrite (sum_sizes_insert _ _ _ _ _ Hci). cbn. lia.
  - unfold complete. cbn. rewrite H3, H4. unfold call_deleteSnapshot.
    cbn. rewrite Hsnap. cbn.
    pose proof (unfinished_cell_bounds _ _ _ Hci eq_refl) as Hlt.
    destruct (uncounted_cell_bounds _ _ _ Hnn Hci eq_refl) as [Hlo Hhi].
    cbn [c_size] in Hhi.
    unfold Number. rewrite H5.
    rewrite (to_double_exact n) by lia. rewrite to_double_exact by lia.
    describe_fields.
    + subst pipes. now rewrite list_fmap_insert.
    + subst ops. symmetry. now apply (fmap_insert_same _ _ _ _ _ Hci).
    + rewrite (sum_sizes_insert _ _ _ _ _ Hci). cbn. lia.
    + rewrite (sum_sizes_insert _ _ _ _ _ Hci). cbn. lia.
    + destruct (Nat.eqb_spec nd (length cells)); [lia | assumption].
  - unfold complete.
    cbn [cell_pipeline waits c_done c_snapshot snapshot snapshotCreated Nat.leb
         result_for].
    rewrite H6. cbn [fold_left perform set_pipeline crashed].
    pose proof (unfinished_cell_bounds _ _ _ Hci eq_refl) as Hlt.
    assert (Hop : ops !! i = Some op_pending)
      by (rewrite Ho, list_lookup_fmap, Hci; reflexivity).
    rewrite doneOne_pending by exact Hop.
    cbn [operations ndone estimatedSize pipelines crashed issued task set_pipeline].
    assert (Hlo : length ops = length cells) by (subst ops; apply length_fmap).
    rewrite Hlo.
    assert (Hops : <[i := op_ok]> ops
                   = cell_operation <$> <[i := advance_cell
                        {| c_snapshot := snap; c_size := n; c_done := 3 |}]> cells)
      by (subst ops; now rewrite list_fmap_insert).
    assert (Htk : tk = []).
    { rewrite Ht. destruct (Nat.eqb_spec nd (length cells)); [lia | reflexivity]. }
    destruct (Nat.ltb_spec (S nd) (length cells)) as [Hlt' | Hge].
    + describe_fields.
      * subst pipes. now rewrite list_fmap_insert.
      * rewrite (sum_sizes_insert _ _ _ _ _ Hci). cbn. lia.
      * rewrite (sum_sizes_insert _ _ _ _ _ Hci). cbn. lia.
      * destruct (Nat.eqb_spec (S nd) (length cells)); [lia | assumption].
    + rewrite Hops, no_failures. unfold onEstimateComplete.
      describe_fields.
      * subst pipes. now rewrite list_fmap_insert.
      * rewrite (sum_sizes_insert _ _ _ _ _ Hci). cbn. lia.
      * rewrite (sum_sizes_insert _ _ _ _ _ Hci). cbn. lia.
      * destruct (Nat.eqb_spec (S nd) (length cells)); [| lia].
        now rewrite Htk.
  - cbn. rewrite list_insert_id by assumption.
    constructor; simpl; auto.
Qed.

(** *** The snapshot names pass [deleteSnapshot]'s assertions *)

Lemma lastIndexOf_from_cons (needle : string) (c : ascii) (hay : string)
    (i best : Z) :
  lastIndexOf_from needle (String c hay) i best
  = lastIndexOf_from needle hay (i + 1)
      (if String.prefix needle (String c hay) then i else best).
Proof. reflexivity. Qed.

Lemma lastIndexOf_from_range (needle hay : string) :
  forall i best : Z,
    lastIndexOf_from needle hay i best = best
    \/ i <= lastIndexOf_from needle hay i best.
Proof.
  induction hay as [| c hay IH]; intros i best.
  - cbn [lastIndexOf_from]. destruct (String.prefix needle ""); [right; lia | now left].
  - rewrite lastIndexOf_from_cons.
    destruct (IH (i + 1) (if String.prefix needle (String c hay) then i else best))
      as [-> | Hge]; [| right; lia].
    destruct (String.prefix needle (String c hay)); [right; lia | now left].
Qed.

Lemma lastIndexOf_from_at (d rest : string) :
  forall i best : Z,
    i + Z.of_nat (String.length d)
    <= lastIndexOf_from "@" (d ++ String "@" rest) i best.
Proof.
  induction d as [| c d IH]; intros i best.
  - cbn [append String.length]. rewrite lastIndexOf_from_cons.
    replace (String.prefix "@" (String "@" rest)) with true
      by (cbn; now destruct rest).
    destruct (lastIndexOf_from_range "@" rest (i + 1) i) as [-> | Hge]; lia.
  - cbn [append String.length]. rewrite lastIndexOf_from_cons.
    specialize (IH (i + 1)
      (if String.prefix "@" (String c (d ++ String "@" rest)) then i else best)).
    lia.
Qed.

Lemma deleteSnapshot_issued (dataset : string) :
  dataset <> ""%string ->
  deleteSnapshot (snapshot_of dataset)
  = Issued (deleteSnapshot_call (snapshot_of dataset)) deleteSnapshot_done.
Proof.
  intros Hne. unfold deleteSnapshot.
  assert (Hlen : 0 < Z.of_nat (String.length (snapshot_of dataset))).
  { destruct dataset as [| c d]; [congruence |]. cbn [snapshot_of append String.length]. lia. }
  assert (Hat : 0 < lastIndexOf (snapshot_of dataset) "@").
  { unfold lastIndexOf, snapshot_of.
    pose proof (lastIndexOf_from_at dataset SNAPSHOT_NAME_PREFIX 0 (-1)) as H.
    change ("@" ++ SNAPSHOT_NAME_PREFIX)%string with (String "@" SNAPSHOT_NAME_PREFIX).
    destruct dataset as [| c d]; [congruence |].
    cbn [String.length] in H. lia. }
  apply Z.ltb_lt in Hlen, Hat. now rewrite Hlen, Hat.
Qed.

(** *** The state after [estimate] has started every run *)

Lemma start_datasets (datasets : list string) :
  Forall (fun d => d <> ""%string) datasets ->
  forall st : estimate_state,
    crashed st = false ->
    fold_left start_dataset datasets st
    = {| estimatedSize := estimatedSize st;
         pipelines := pipelines st
                      ++ ((fun d => cell_pipeline (initial_cell d 0)) <$> datasets);
         operations := operations st; ndone := ndone st; crashed := false;
         issued := issued st
                   ++ ((fun d => deleteSnapshot_call (snapshot_of d)) <$> datasets);
         task := task st |}.
Proof.
  induction 1 as [| d datasets Hd Hds IH]; intros st Hc.
  - destruct st; simpl in *. subst. now rewrite !app_nil_r.
  - assert (Hstep : start_dataset st d
                    = {| estimatedSize := estimatedSize st;
                         pipelines := pipelines st ++ [cell_pipeline (initial_cell d 0)];
                         operations := operations st; ndone := ndone st;
                         crashed := false;
                         issued := issued st ++ [deleteSnapshot_call (snapshot_of d)];
                         task := task st |}).
    { unfold start_dataset. rewrite Hc.
      unfold estimateOneDataset, call_deleteSnapshot.
      fold (snapshot_of d). rewrite (deleteSnapshot_issued d Hd).
      destruct st; simpl in *. subst. reflexivity. }
    cbn [fold_left]. rewrite Hstep. rewrite IH by reflexivity.
    cbn [estimatedSize pipelines operations ndone crashed issued task].
    rewrite !fmap_cons, <- !app_assoc. reflexivity.
Qed.

Lemma initial_cells_facts (datasets : list string) :
  forall sizes : list Z,
    length sizes = length datasets ->
    cell_pipeline <$> initial_cells datasets sizes
    = (fun d => cell_pipeline (initial_cell d 0)) <$> datasets /\
    cell_operation <$> initial_cells datasets sizes
    = replicate (length datasets) op_pending /\
    sum_sizes (cell_counted <$> initial_cells datasets sizes) = 0 /\
    sum_sizes (cell_finished <$> initial_cells datasets sizes) = 0 /\
    length (initial_cells datasets sizes) = length datasets /\
    c_size <$> initial_cells datasets sizes = sizes /\
    (Forall (fun d => d <> ""%string) datasets ->
     Forall snapshot_ok (initial_cells datasets sizes)).
Proof.
  induction datasets as [| d datasets IH]; intros [| n sizes] Hlen;
    try discriminate.
  - repeat split; auto.
  - injection Hlen as Hlen.
    destruct (IH sizes Hlen) as (H1 & H2 & H3 & H4 & H5 & H6 & H7).
    change (initial_cells (d :: datasets) (n :: sizes))
      with (initial_cell d n :: initial_cells datasets sizes).
    rewrite !sum_sizes_cons, !fmap_cons, H1, H2, H3, H4, H6.
    repeat split; auto.
    + rewrite length_cons. now rewrite H5.
    + intros Hne. apply Forall_cons in Hne as [Hd Hne]. constructor; auto.
      now apply deleteSnapshot_issued.
Qed.

Lemma estimate_describes (vm : vm_t) (sizes : list Z) :
  Forall (fun d => d <> ""%string) (datasets_of vm) ->
  length sizes = length (datasets_of vm) ->
  describes (initial_cells (datasets_of vm) sizes) (estimate vm).
Proof.
  intros Hne Hlen. unfold estimate. rewrite (start_datasets _ Hne) by reflexivity.
  destruct (initial_cells_facts (datasets_of vm) sizes Hlen)
    as (H1 & H2 & H3 & H4 & H5 & _ & _).
  constructor; cbn [estimatedSize pipelines operations ndone crashed issued task].
  - now rewrite H1.
  - now rewrite H2.
  - now rewrite H3.
  - now rewrite H4.
  - reflexivity.
  - rewrite H5. unfold datasets_of. reflexivity.
Qed.

(** *** Completions in any order *)

Lemma advance_keeps (world : list dataset_run) (cells : list cell) (i : nat) :
  Forall2 (fun run c => run_size run = Some (c_size c)) world cells ->
  Forall snapshot_ok cells ->
  Forall2 (fun run c => run_size run = Some (c_size c)) world (advance cells i) /\
  Forall snapshot_ok (advance cells i) /\
  c_size <$> advance cells i = c_size <$> cells.
Proof.
  intros Hw Hok. unfold advance.
  destruct (cells !! i) as [c |] eqn:Hci; [| auto].
  destruct (Forall2_lookup_r _ _ _ _ _ Hw Hci) as (run & Hrun & Hsize).
  pose proof (Forall_lookup_1 _ _ _ _ Hok Hci) as Hsnap.
  repeat split.
  - rewrite <- (list_insert_id world i run Hrun). now apply Forall2_insert.
  - now apply Forall_insert.
  - now apply (fmap_insert_same _ _ _ _ _ Hci).
Qed.

Lemma run_describes (world : list dataset_run) (schedule : list nat) :
  forall (cells : list cell) (st : estimate_state),
    Forall2 (fun run c => run_size run = Some (c_size c)) world cells ->
    Forall snapshot_ok cells ->
    sum_sizes (c_size <$> cells) <= 2 ^ 53 ->
    describes cells st ->
    describes (fold_left advance schedule cells)
              (fold_left (step world) schedule st) /\
    c_size <$> fold_left advance schedule cells = c_size <$> cells.
Proof.
  induction schedule as [| i schedule IH];
    intros cells st Hw Hok Hrange Hd; [auto |].
  cbn [fold_left].
  destruct (advance_keeps world cells i Hw Hok) as (Hw' & Hok' & Hsz).
  assert (Hrange' : sum_sizes (c_size <$> advance cells i) <= 2 ^ 53)
    by now rewrite Hsz.
  destruct (IH (advance cells i) (step world st i) Hw' Hok' Hrange'
              (step_describes world cells st i Hw Hok Hrange Hd)) as [Hd' Hsz'].
  split; [exact Hd' | now rewrite Hsz'].
Qed.


Lemma finished_cells_sums (cells : list cell) :
  Forall (fun c => (4 <= c_done c)%nat) cells ->
  sum_sizes (cell_finished <$> cells) = Z.of_nat (length cells) /\
  sum_sizes (cell_counted <$> cells) = sum_sizes (c_size <$> cells).
Proof.
  induction 1 as [| c cells Hc Hcs [IH1 IH2]]; [auto |].
  rewrite !sum_sizes_cons, length_cons, IH1, IH2.
  unfold cell_finished, cell_counted.
  destruct (Nat.leb_spec 4 (c_done c)); [| lia].
  destruct (Nat.leb_spec 3 (c_done c)); lia.
Qed.



Lemma all_finished (cells : list cell) :
  sum_sizes (cell_finished <$> cells) = Z.of_nat (length cells) ->
  Forall (fun c => (4 <= c_done c)%nat) cells.
Proof.
  induction cells as [| c cells IH]; intros Hsum; [constructor |].
  rewrite sum_sizes_cons, length_cons in Hsum.
  pose proof (finished_bounds cells) as Hb.
  unfold cell_finished at 1 in Hsum.
  destruct (Nat.leb_spec 4 (c_done c)); [| lia].
  constructor; [assumption | apply IH; lia].
Qed.

(** X23: while the commands succeed the task is never finished early or
    twice: at every point of every schedule it has not been called, or
    it has been finished once with the whole sum. *)
Lemma estimate_never_finishes_early (vm : vm_t) (world : list dataset_run)
    (sizes : list Z) (schedule : list nat) :
  Forall (fun d => d <> ""%string) (datasets_of vm) ->
  length world = length (datasets_of vm) ->
  Forall2 (fun run n => run_size run = Some n) world sizes ->
  sum_sizes sizes <= 2 ^ 53 ->
  task (run_estimate vm world schedule) = [] \/
  task (run_estimate vm world schedule) = [finish (SizeResult (sum_sizes sizes))].
Proof.
  intros Hne Hlen Hsizes Hrange.
  pose proof (Forall2_length _ _ _ Hsizes) as Hlen'.
  assert (Hls : length sizes = length (datasets_of vm)) by lia.
  destruct (initial_cells_facts (datasets_of vm) sizes Hls)
    as (_ & _ & _ & _ & Hlc & Hcs & Hok).
  specialize (Hok Hne).
  set (cells := initial_cells (datasets_of vm) sizes) in *.
  assert (Hw : Forall2 (fun run c => run_size run = Some (c_size c)) world cells).
  { rewrite <- Hcs in Hsizes. now apply Forall2_fmap_r in Hsizes. }
  assert (Hrange' : sum_sizes (c_size <$> cells) <= 2 ^ 53) by now rewrite Hcs.
  destruct (run_describes world schedule cells (estimate vm) Hw Hok Hrange'
              (estimate_describes vm sizes Hne Hls)) as [Hd Hsz].
  fold (run_estimate vm world schedule) in Hd.
  destruct Hd as [_ _ Hs Hn _ Ht]. rewrite Ht.
  destruct (Nat.eqb_spec (ndone (run_estimate vm world schedule))
              (length (fold_left advance schedule cells))) as [Hall | _];
    [right | now left].
  rewrite Hall in Hn. symmetry in Hn. apply all_finished in Hn.
  destruct (finished_cells_sums _ Hn) as [_ Hc].
  now rewrite Hs, Hc, Hsz, Hcs.
Qed.

(** ** The scenarios of the specification *)

(** One dataset without a previous snapshot, the dry run printing
    104857600: four commands, then [finish({size: 104857600})]. *)
Example scenario_single_dataset :
  let vm := {| brand := JStr "joyent"; zfs_filesystem := "zones/abc"%string;
               disks := None |} in
  let st := run_estimate vm [successful_run "104857600"] [0; 0; 0; 0]%nat in
  task st = [finish (SizeResult 104857600)] /\
  issued st = [deleteSnapshot_call "zones/abc@vm-migrate-estimate";
               createSnapshot_call "zones/abc@vm-migrate-estimate";
               getEstimate_call "zones/abc@vm-migrate-estimate";
               deleteSnapshot_call "zones/abc@vm-migrate-estimate"].
Proof. split; reflexivity. Qed.

(** Only a kvm machine adds the datasets of its disks. *)
Example scenario_datasets :
  datasets_of {| brand := JStr "kvm"; zfs_filesystem := "zones/abc"%string;
                 disks := Some ["zones/abc-disk0"; "zones/abc-disk1"]%string |}
  = ["zones/abc"; "zones/abc-disk0"; "zones/abc-disk1"]%string /\
  datasets_of {| brand := JStr "bhyve"; zfs_filesystem := "zones/abc"%string;
                 disks := Some ["zones/abc/disk0"]%string |}
  = ["zones/abc"]%string.
Proof. split; reflexivity. Qed.

(** No pid: the task fails at once and nothing is probed or signalled. *)
Example scenario_kill_without_pid (ppid : jsval) (env : kill_env) :
  killChild JUndefined ppid env
  = [on_task (fatal (Msg "No PID supplied to kill_migration_process task") None)].
Proof. reflexivity. Qed.

(** The process exists with the recorded parent, in another zone: the
    task finishes and no signal is sent. *)
Example scenario_kill_other_zone :
  killChild (JNum 977) (JStr "4242")
    {| probe_ok := true; ps_output := Some "4242 zone-a"%string;
       argv_file := Some "node /opt/bin/machine-migrate.js"%string;
       sigterm_ok := true |}
  = [process_kill (JNum 977) SIG0;
     execFileSync_ps ["-p"; "977"; "-o"; "ppid="; "-o"; "zone="]%string;
     on_task (finish NoValue)].
Proof. reflexivity. Qed.

(* ================================================================== *)
(** * Further properties of the session *)
(* ================================================================== *)

Section SessionMore.

Variable process_pid : Z.

Local Abbreviation run := (fold_left (deliver process_pid)).

(** X1: when the result message is delivered before any exit, the task
    is completed exactly once, by the call that message asks for,
    whatever is delivered afterwards (further messages, exits). *)
Theorem first_message_decides (before after : list child_event)
    (result : worker_result) :
  forallb (fun ev => negb (is_message ev) && negb (is_exit ev)) before = true ->
  calls (run_session process_pid (before ++ message result :: after))
  = [completion process_pid result].
Proof.
  intros Hq. unfold run_session. rewrite fold_left_app. cbn [fold_left].
  assert (Hm : forallb (fun ev => negb (is_message ev)) before = true).
  { clear -Hq. induction before as [| ev before IH]; cbn in *; auto.
    apply andb_true_iff in Hq as [Hev Hq].
    apply andb_true_iff in Hev as [-> _]. now apply IH. }
  destruct (run_keeps_flags process_pid before startChildProcess Hm) as [Hh Ho].
  pose proof (run_keeps_calls process_pid before startChildProcess Hq) as Hc.
  cbn in Hh, Ho, Hc.
  set (s := run before startChildProcess) in *.
  assert (Hstep : deliver process_pid s (message result)
                  = {| handledResponse := true;
                       limitedStderr := limitedStderr s;
                       once_called := true;
                       disconnects := S (disconnects s);
                       calls := [completion process_pid result] |}).
  { cbn. unfold on_message. rewrite Ho. unfold message_handler. cbn.
    now rewrite Hc. }
  rewrite Hstep. now rewrite handled_is_final.
Qed.

Lemma exits_append_fatals (events : list child_event) :
  forall s : session,
    forallb (fun ev => negb (is_message ev)) events = true ->
    handledResponse s = false ->
    exists added : list task_call,
      calls (run events s) = calls s ++ added /\
      length added = length (List.filter is_exit events) /\
      existsb is_finish added = false.
Proof.
  induction events as [| ev events IH]; intros s Hq Hh.
  - exists []. cbn. now rewrite app_nil_r.
  - cbn [forallb] in Hq. apply andb_true_iff in Hq as [Hev Hq].
    apply negb_true_iff in Hev.
    destruct (deliver_keeps_flags process_pid s ev Hev) as [Hh' _].
    rewrite Hh in Hh'.
    destruct (IH (deliver process_pid s ev) Hq Hh') as (added & Hc & Hl & Hf).
    cbn [fold_left]. rewrite Hc.
    destruct ev; try discriminate; cbn [deliver List.filter is_exit];
      try (exists added; now repeat split).
    unfold on_exit. rewrite Hh. cbn [calls].
    eexists (_ :: added). rewrite <- app_assoc. cbn [app].
    repeat split; cbn; [now rewrite Hl | exact Hf].
Qed.

(** X2: without a result message the task is never finished: it is
    failed once for each exit event delivered. *)
Theorem exits_without_message_only_fail (events : list child_event) :
  forallb (fun ev => negb (is_message ev)) events = true ->
  length (calls (run_session process_pid events))
  = length (List.filter is_exit events) /\
  existsb is_finish (calls (run_session process_pid events)) = false.
Proof.
  intros Hq.
  destruct (exits_append_fatals events startChildProcess Hq eq_refl)
    as (added & Hc & Hl & Hf).
  unfold run_session. rewrite Hc. cbn [calls startChildProcess app]. now split.
Qed.

Lemma deliver_finished_by_handler (s : session) (ev : child_event) :
  finished_by_handler process_pid s ->
  finished_by_handler process_pid (deliver process_pid s ev).
Proof.
  intros (Hnone & Hle & Hall).
  destruct ev; cbn [deliver]; try (now repeat split).
  - unfold on_message. destruct (once_called s) eqn:Ho;
      [repeat split; auto; intros; congruence |].
    specialize (Hnone eq_refl). unfold message_handler. cbn [calls error body].
    repeat split; cbn [once_called calls].
    + discriminate.
    + rewrite List.filter_app, Hnone. destruct (error result); cbn; lia.
    + apply Forall_app. split; [exact Hall |]. constructor; [| constructor].
      destruct (error result); [discriminate | eauto].
  - unfold on_exit. destruct (handledResponse s); [now repeat split |].
    repeat split; cbn [once_called calls].
    + intros Ho. rewrite List.filter_app, (Hnone Ho). reflexivity.
    + rewrite List.filter_app, length_app. cbn. lia.
    + apply Forall_app. split; [exact Hall |]. constructor; [| constructor].
      discriminate.
Qed.

(** X3: over every sequence of events the task is finished at most
    once, and the result it is finished with carries this process's pid
    as [ppid]. *)
Theorem finish_at_most_once (events : list child_event) :
  (length (List.filter is_finish (calls (run_session process_pid events))) <= 1)%nat /\
  Forall (fun c => is_finish c = true ->
                   exists body, c = finish (WorkerResult body process_pid))
         (calls (run_session process_pid events)).
Proof.
  assert (H : forall s, finished_by_handler process_pid s ->
                        finished_by_handler process_pid (run events s)).
  { induction events as [| ev events IH]; intros s Hs; [exact Hs |].
    cbn [fold_left]. apply IH. now apply deliver_finished_by_handler. }
  destruct (H startChildProcess) as (_ & Hle & Hall).
  - repeat split; cbn; auto.
  - now split.
Qed.


End SessionMore.

(** X5: what is captured depends on the stderr stream only, not on how
    it is cut into chunks. *)
Theorem capture_ignores_chunking (chunks1 chunks2 : list Buffer) :
  chunks1 <> [] -> chunks2 <> [] ->
  concat chunks1 = concat chunks2 ->
  capture chunks1 = capture chunks2.
Proof.
  intros H1 H2 Heq. rewrite !capture_spec, Heq.
  destruct chunks1; [congruence |]. destruct chunks2; [congruence |]. reflexivity.
Qed.

Lemma first_message_decides_witness :
  calls (run_session 4242
           ([stderr_chunk (Buffer_from "warning")]
            ++ message {| error := Some "no such dataset"%string; body := "{}"%string |}
               :: [exit (Some 1) None;
                   message {| error := None; body := "{}"%string |}]))
  = [completion 4242 {| error := Some "no such dataset"%string; body := "{}"%string |}].
Proof.
  apply (first_message_decides 4242 [stderr_chunk (Buffer_from "warning")]).
  reflexivity.
Defined.

Lemma exits_without_message_only_fail_witness :
  let events := [stderr_chunk (Buffer_from "panic"); exit None (Some "SIGSEGV"%string);
                 disconnect] in
  length (calls (run_session 4242 events)) = length (List.filter is_exit events) /\
  existsb is_finish (calls (run_session 4242 events)) = false.
Proof.
  intro events. apply (exits_without_message_only_fail 4242 events). reflexivity.
Defined.


Lemma capture_ignores_chunking_witness :
  capture [Buffer_from "cannot open "; Buffer_from "zones/abc"]
  = capture [Buffer_from "cannot"; Buffer_from " open zones"; Buffer_from "/abc"].
Proof.
  apply capture_ignores_chunking; [discriminate | discriminate | reflexivity].
Defined.

(* ================================================================== *)
(** * Further properties of killChild *)
(* ================================================================== *)

Lemma split_not_nil (sep : ascii) (s : string) : split sep s <> [].
Proof.
  destruct s as [| c s]; cbn [split]; [discriminate |].
  destruct (Ascii.eqb c sep); [discriminate |].
  destruct (split sep s); discriminate.
Qed.

Lemma split_cons (sep c : ascii) (s : string) :
  split sep (String c s)
  = if Ascii.eqb c sep then EmptyString :: split sep s
    else match split sep s with
         | [] => [String c EmptyString]
         | w :: ws => String c w :: ws
         end.
Proof. reflexivity. Qed.

Lemma split_nosep (sep : ascii) (s : string) :
  has_char sep s = false -> split sep s = [s].
Proof.
  induction s as [| c s IH]; intros Hs; [reflexivity |].
  cbn [has_char] in Hs. apply orb_false_iff in Hs as [Hc Hs].
  rewrite split_cons, Hc, (IH Hs). reflexivity.
Qed.

Lemma split_app (sep : ascii) (a b : string) :
  split sep (a ++ String sep b) = split sep a ++ split sep b.
Proof.
  induction a as [| c a IH].
  - cbn [append]. rewrite split_cons, Ascii.eqb_refl. reflexivity.
  - cbn [append]. rewrite !split_cons, IH.
    destruct (Ascii.eqb c sep); [reflexivity |].
    pose proof (split_not_nil sep a) as Hne.
    destruct (split sep a); [congruence | reflexivity].
Qed.

Lemma split_segments (sep : ascii) (s : string) :
  Forall (fun w => has_char sep w = false) (split sep s).
Proof.
  induction s as [| c s IH]; [repeat constructor |].
  rewrite split_cons. destruct (Ascii.eqb c sep) eqn:Hc.
  - constructor; [reflexivity | exact IH].
  - destruct (split sep s) as [| w ws]; [repeat constructor; cbn; now rewrite Hc |].
    apply Forall_cons in IH as [Hw Hws].
    constructor; [cbn; now rewrite Hc, Hw | exact Hws].
Qed.

Lemma joined_split (sep : ascii) (s : string) : joined sep (split sep s) = s.
Proof.
  induction s as [| c s IH]; [reflexivity |].
  rewrite split_cons. destruct (Ascii.eqb_spec c sep) as [-> | Hne].
  - pose proof (split_not_nil sep s) as Hnil.
    destruct (split sep s) as [| w ws]; [congruence |].
    cbn [joined append] in *. now rewrite IH.
  - destruct (split sep s) as [| w ws] eqn:Hs.
    + exfalso. now apply (split_not_nil sep s).
    + destruct ws; cbn [joined append] in *; now rewrite IH.
Qed.

(** X6: [argSplit[0] !== ppid] is a strict comparison with a string, so
    when the payload's ppid is not a string (a number, as the session
    records it) no signal is ever sent; the task still finishes. *)
Theorem killChild_needs_string_ppid (pid ppid : jsval) (env : kill_env) :
  truthy pid = true ->
  (forall s : string, ppid <> JStr s) ->
  signal_sent (killChild pid ppid env) = false /\
  task_calls (killChild pid ppid env) = [finish NoValue].
Proof.
  intros Hpid Hppid. destruct (killChild_spec pid ppid env Hpid) as [Hcalls Hsig].
  split; [| exact Hcalls]. rewrite Hsig.
  assert (Hparent : check_parent ppid env = false).
  { unfold check_parent. destruct (ps_output env) as [buf |]; [| reflexivity].
    destruct (split " " buf !! 0%nat) as [a |]; [| reflexivity].
    destruct ppid; try reflexivity. now destruct (Hppid s). }
  rewrite Hparent. now rewrite andb_false_r.
Qed.

Lemma killChild_needs_string_ppid_witness :
  let env := {| probe_ok := true; ps_output := Some "4242 global"%string;
                argv_file := Some "node /opt/bin/machine-migrate.js"%string;
                sigterm_ok := true |} in
  signal_sent (killChild (JNum 977) (JNum 4242) env) = false /\
  task_calls (killChild (JNum 977) (JNum 4242) env) = [finish NoValue].
Proof.
  intro env. apply (killChild_needs_string_ppid (JNum 977) (JNum 4242) env).
  - reflexivity.
  - intros s. discriminate.
Defined.

(** X7: a signal is sent only if the output of [ps] is the ppid, one
    space and [global], followed by nothing or by another space; so an
    output that ends its zone field with a line feed, as in
    ["4242 global\n"], is never accepted. *)
Theorem killChild_needs_exact_ps_output (pid ppid : jsval) (env : kill_env) :
  truthy pid = true ->
  (signal_sent (killChild pid ppid env) = true ->
   exists a rest : string,
     ppid = JStr a /\
     ps_output env = Some (a ++ " global" ++ rest)%string /\
     (rest = ""%string \/ exists r, rest = String " " r)) /\
  (forall a : string,
     has_char " " a = false ->
     ps_output env = Some (a ++ " global" ++ String "010" "")%string ->
     signal_sent (killChild pid ppid env) = false).
Proof.
  intros Hpid. destruct (killChild_spec pid ppid env Hpid) as [_ Hsig].
  rewrite Hsig. split.
  - intros Hall. rewrite !andb_true_iff in Hall.
    destruct Hall as [[[_ Hparent] Hzone] _].
    unfold check_parent, check_zone in *.
    destruct (ps_output env) as [buf |]; [| discriminate].
    pose proof (joined_split " " buf) as Hjoin.
    destruct (split " " buf) as [| a [| z ws]]; try discriminate.
    cbn in Hparent, Hzone. apply String.eqb_eq in Hzone. subst z.
    destruct ppid as [| | n | s]; try discriminate.
    cbn in Hparent. apply String.eqb_eq in Hparent. subst s.
    exists a. destruct ws as [| w ws].
    + exists ""%string. cbn [joined] in Hjoin. rewrite <- Hjoin.
      repeat split; auto.
    + exists (String " " (joined " " (w :: ws))). rewrite <- Hjoin.
      repeat split; eauto.
  - intros a Ha Hps.
    assert (Hzone : check_zone env = false).
    { unfold check_zone. rewrite Hps.
      change (a ++ " global" ++ String "010" "")%string
        with (a ++ String " " ("global" ++ String "010" ""))%string.
      rewrite split_app, (split_nosep " " a Ha). reflexivity. }
    rewrite Hzone. now rewrite andb_false_r.
Qed.

Lemma killChild_needs_exact_ps_output_witness :
  let env := {| probe_ok := true;
                ps_output := Some ("4242 global" ++ String "010" "")%string;
                argv_file := Some "node /opt/bin/machine-migrate.js"%string;
                sigterm_ok := true |} in
  (signal_sent (killChild (JNum 977) (JStr "4242") env) = true ->
   exists a rest : string,
     JStr "4242" = JStr a /\
     ps_output env = Some (a ++ " global" ++ rest)%string /\
     (rest = ""%string \/ exists r, rest = String " " r)) /\
  (forall a : string,
     has_char " " a = false ->
     ps_output env = Some (a ++ " global" ++ String "010" "")%string ->
     signal_sent (killChild (JNum 977) (JStr "4242") env) = false).
Proof.
  intro env. apply (killChild_needs_exact_ps_output (JNum 977) (JStr "4242") env).
  reflexivity.
Defined.

(* ================================================================== *)
(** * Further properties of deleteSnapshot and of one estimate run *)
(* ================================================================== *)

Lemma prefix_at (c : ascii) (rest : string) :
  String.prefix "@" (String c rest) = true -> c = "@"%char.
Proof.
  cbn [String.prefix]. destruct (ascii_dec "@" c) as [<- | _]; [reflexivity | discriminate].
Qed.

Lemma lastIndexOf_from_found (hay : string) :
  forall i best : Z,
    lastIndexOf_from "@" hay i best = best \/
    exists pre post : string,
      hay = (pre ++ String "@" post)%string /\
      lastIndexOf_from "@" hay i best = i + Z.of_nat (String.length pre).
Proof.
  induction hay as [| c hay IH]; intros i best.
  - left. reflexivity.
  - rewrite lastIndexOf_from_cons.
    destruct (IH (i + 1) (if String.prefix "@" (String c hay) then i else best))
      as [Heq | (pre & post & Hhay & Hr)].
    + rewrite Heq. destruct (String.prefix "@" (String c hay)) eqn:Hp; [| now left].
      right. apply prefix_at in Hp. subst c.
      exists ""%string, hay. cbn [append String.length]. split; [reflexivity | lia].
    + right. exists (String c pre), post. subst hay.
      cbn [append String.length]. split; [reflexivity | lia].
Qed.

(** X8: [deleteSnapshot] runs [zfs destroy -r] exactly on the names that
    have a non-empty dataset part before an ["@"]; on any other name
    (a bare dataset, an empty name) an assertion throws and no command
    is run. *)
Theorem deleteSnapshot_destroys_only_snapshots (snapshot : string) :
  (exists d rest : string,
     d <> ""%string /\ snapshot = (d ++ String "@" rest)%string)
  <-> deleteSnapshot snapshot
      = Issued {| cmd := "/usr/sbin/zfs";
                  args := ["destroy"; "-r"; snapshot]%string;
                  timeout := Some 300000 |}
               deleteSnapshot_done.
Proof.
  unfold deleteSnapshot. split.
  - intros (d & rest & Hd & ->).
    assert (Hlen : 0 < Z.of_nat (String.length (d ++ String "@" rest))).
    { destruct d; [congruence |]. cbn [append String.length]. lia. }
    assert (Hat : 0 < lastIndexOf (d ++ String "@" rest) "@").
    { unfold lastIndexOf.
      pose proof (lastIndexOf_from_at d rest 0 (-1)) as H.
      destruct d; [congruence |]. cbn [String.length] in H. lia. }
    apply Z.ltb_lt in Hlen, Hat. now rewrite Hlen, Hat.
  - destruct (0 <? Z.of_nat (String.length snapshot)); [| discriminate].
    destruct (0 <? lastIndexOf snapshot "@") eqn:Hat; [| discriminate].
    intros _. apply Z.ltb_lt in Hat. unfold lastIndexOf in Hat.
    destruct (lastIndexOf_from_found snapshot 0 (-1))
      as [Heq | (pre & post & Hs & Hr)]; [lia |].
    exists pre, post. split; [| exact Hs].
    intros ->. cbn [String.length] in Hr. lia.
Qed.






Lemma estimate_never_finishes_early_witness :
  let vm := {| brand := JStr "kvm"; zfs_filesystem := "zones/abc"%string;
               disks := Some ["zones/abc-disk0"]%string |} in
  let world := [successful_run "10"; successful_run "20"] in
  let schedule := [1; 0; 1; 1; 0]%nat in
  task (run_estimate vm world schedule) = [] \/
  task (run_estimate vm world schedule)
  = [finish (SizeResult (sum_sizes [10; 20]))].
Proof.
  intros vm world schedule.
  apply (estimate_never_finishes_early vm world [10; 20] schedule).
  - repeat constructor; discriminate.
  - reflexivity.
  - repeat constructor.
  - vm_compute. discriminate.
Defined.

(* ================================================================== *)
(** * Reading the output of zfs *)
(* ================================================================== *)

Lemma trim_end_cons (c : ascii) (s : string) :
  trim_end (String c s)
  = match trim_end s with
    | EmptyString => if is_space c then EmptyString else String c EmptyString
    | t => String c t
    end.
Proof. reflexivity. Qed.

Lemma trim_end_app (u t : string) :
  trim_end t <> ""%string -> trim_end (u ++ t) = (u ++ trim_end t)%string.
Proof.
  intros Ht. induction u as [| c u IH]; [reflexivity |].
  cbn [append]. rewrite trim_end_cons, IH.
  destruct (u ++ trim_end t)%string eqn:Hut; [| reflexivity].
  destruct u; [cbn in Hut; congruence | discriminate].
Qed.

Lemma trim_end_no_space (t : string) : no_space t = true -> trim_end t = t.
Proof.
  induction t as [| c t IH]; intros Ht; [reflexivity |].
  cbn [no_space] in Ht. apply andb_true_iff in Ht as [Hc Ht].
  apply negb_true_iff in Hc.
  rewrite trim_end_cons, (IH Ht), Hc. now destruct t.
Qed.

Lemma trim_end_line (t : string) :
  no_space t = true -> t <> ""%string ->
  trim_end (t ++ String "010" "") = t.
Proof.
  induction t as [| c t IH]; intros Ht Hne; [congruence |].
  cbn [no_space] in Ht. apply andb_true_iff in Ht as [Hc Ht].
  apply negb_true_iff in Hc.
  cbn [append]. rewrite trim_end_cons.
  destruct t as [| d t].
  - cbn. now rewrite Hc.
  - rewrite (IH Ht) by discriminate. reflexivity.
Qed.

Lemma trim_start_no_space (t : string) : no_space t = true -> trim_start t = t.
Proof.
  destruct t as [| c t]; [reflexivity |]. cbn [no_space trim_start].
  intros Ht. apply andb_true_iff in Ht as [Hc _].
  apply negb_true_iff in Hc. now rewrite Hc.
Qed.

Lemma no_space_no_line_feed (t : string) :
  no_space t = true -> has_char "010" t = false.
Proof.
  induction t as [| c t IH]; intros Ht; [reflexivity |].
  cbn [no_space] in Ht. apply andb_true_iff in Ht as [Hc Ht].
  cbn [has_char]. rewrite (IH Ht), orb_false_r.
  destruct (Ascii.eqb_spec c "010") as [-> | _]; [discriminate | reflexivity].
Qed.

Lemma all_digits_no_space (digits : string) :
  all_digits digits = true -> no_space digits = true.
Proof.
  induction digits as [| c digits IH]; intros Hd; [reflexivity |].
  cbn [all_digits] in Hd. apply andb_true_iff in Hd as [Hc Hd].
  cbn [no_space]. rewrite (IH Hd), andb_true_r.
  unfold is_digit in Hc. unfold is_space.
  apply andb_true_iff in Hc as [Hlo Hhi].
  apply Nat.leb_le in Hlo, Hhi.
  destruct (Nat.leb_spec 9 (nat_of_ascii c)); destruct (Nat.leb_spec (nat_of_ascii c) 13);
    destruct (Nat.eqb_spec (nat_of_ascii c) 32); cbn; try reflexivity; lia.
Qed.

Lemma split_joined (sep : ascii) (words : list string) :
  words <> [] ->
  Forall (fun w => has_char sep w = false) words ->
  split sep (joined sep words) = words.
Proof.
  induction words as [| w words IH]; intros Hne Hall; [congruence |].
  apply Forall_cons in Hall as [Hw Hall].
  destruct words as [| w' words].
  - cbn [joined]. now apply split_nosep.
  - change (joined sep (w :: w' :: words))
      with (w ++ String sep (joined sep (w' :: words)))%string.
    rewrite split_app, (split_nosep sep w Hw), IH by (auto; discriminate).
    reflexivity.
Qed.

Lemma append_line (a b : string) :
  (a ++ String "010" b)%string = ((a ++ String "010" "") ++ b)%string.
Proof.
  induction a as [| c a IH]; [reflexivity |]. cbn [append]. now rewrite IH.
Qed.

Lemma trim_unlines (names : list string) :
  names <> [] ->
  Forall (fun n => n <> ""%string /\ no_space n = true) names ->
  trim (unlines names) = joined "010" names.
Proof.
  intros Hne Hall. unfold trim.
  assert (Hstart : trim_start (unlines names) = unlines names).
  { destruct names as [| n names]; [congruence |].
    apply Forall_cons in Hall as [[Hn Hs] _].
    destruct n as [| c n]; [congruence |].
    cbn [unlines append no_space trim_start] in *.
    apply andb_true_iff in Hs as [Hc _]. apply negb_true_iff in Hc. now rewrite Hc. }
  rewrite Hstart. clear Hstart.
  induction names as [| n names IH]; [congruence |].
  apply Forall_cons in Hall as [[Hn Hs] Hall].
  destruct names as [| m names].
  - cbn [unlines joined]. now apply trim_end_line.
  - replace (unlines (n :: m :: names))
      with ((n ++ String "010" "") ++ unlines (m :: names))%string
      by (cbn [unlines]; now rewrite <- append_line).
    assert (Hrest : trim_end (unlines (m :: names)) = joined "010" (m :: names))
      by (apply IH; [discriminate | exact Hall]).
    rewrite trim_end_app.
    + rewrite Hrest. cbn [joined]. now rewrite <- append_line.
    + rewrite Hrest. apply Forall_cons in Hall as [[Hm _] _].
      destruct m; [congruence |]. destruct names; discriminate.
Qed.

(** X11: the snapshot names that [zfs list -H -o name] prints, one per
    line, are read back exactly: names without white space, each
    followed by a line feed, give [ctx.snapshots] equal to the names; no
    output gives no snapshots. *)
Theorem parse_snapshots_reads_lines (names : list string) :
  Forall (fun n => n <> ""%string /\ no_space n = true) names ->
  parse_snapshots (unlines names) = names.
Proof.
  intros Hall. unfold parse_snapshots.
  destruct names as [| n names]; [reflexivity |].
  rewrite trim_unlines by (auto; discriminate).
  rewrite split_joined.
  - induction Hall as [| x xs [Hx _] _ IH]; [reflexivity |].
    cbn [List.filter]. rewrite IH.
    destruct (String.eqb_spec x ""); [congruence | reflexivity].
  - discriminate.
  - eapply Forall_impl; [exact Hall |].
    intros x [_ Hx]. now apply no_space_no_line_feed.
Qed.

Lemma parse_snapshots_reads_lines_witness :
  parse_snapshots (unlines ["zones/abc@vm-migration-1"; "zones/abc/disk0@vm-migration-1"]%string)
  = ["zones/abc@vm-migration-1"; "zones/abc/disk0@vm-migration-1"]%string.
Proof.
  apply parse_snapshots_reads_lines. repeat constructor; discriminate.
Defined.

(** X12: whatever the command prints, no name in [ctx.snapshots] is
    empty or contains a line feed. *)
Theorem parse_snapshots_names (stdout : string) :
  Forall (fun n => n <> ""%string /\ has_char "010" n = false)
         (parse_snapshots stdout).
Proof.
  unfold parse_snapshots.
  pose proof (split_segments "010" (trim stdout)) as Hsegs.
  induction Hsegs as [| w ws Hw _ IH]; [constructor |].
  cbn [List.filter]. destruct (String.eqb_spec w ""); cbn [negb]; [exact IH |].
  constructor; [now split | exact IH].
Qed.

Lemma string_app_assoc (a b c : string) :
  ((a ++ b) ++ c)%string = (a ++ (b ++ c))%string.
Proof.
  induction a as [| x a IH]; [reflexivity |]. cbn [append]. now rewrite IH.
Qed.

Lemma substring_all (s : string) : String.substring 0 (String.length s) s = s.
Proof.
  induction s as [| c s IH]; [reflexivity |].
  cbn [String.length String.substring]. now rewrite IH.
Qed.

(** Trimming the start of a text leaves its last line whole, preceded
    by nothing or by whole lines. *)
Lemma trim_start_before_line (c : ascii) (r : string) :
  is_space c = false ->
  forall pre : string,
    exists x : string,
      trim_start (pre ++ String "010" (String c r)) = (x ++ String c r)%string /\
      (x = ""%string \/ exists y, x = (y ++ String "010" "")%string).
Proof.
  intros Hc. induction pre as [| d pre IH].
  - exists ""%string. cbn [append trim_start].
    replace (is_space "010") with true by reflexivity.
    rewrite Hc. split; [reflexivity | now left].
  - cbn [append trim_start]. destruct (is_space d); [exact IH |].
    exists (String d pre ++ String "010" "")%string. split.
    + cbn [append]. now rewrite <- append_line.
    + right. now exists (String d pre).
Qed.

Lemma last_split_line (x line : string) :
  has_char "010" line = false ->
  (x = ""%string \/ exists y, x = (y ++ String "010" "")%string) ->
  List.last (split "010" (x ++ line)) EmptyString = line.
Proof.
  intros Hline [-> | (y & ->)].
  - cbn [append]. now rewrite (split_nosep _ _ Hline).
  - rewrite <- append_line, split_app, (split_nosep _ _ Hline).
    apply List.last_last.
Qed.

(** X13: [getEstimate] reads the size off the last line of the output:
    whatever the lines before it are, an output that ends with the line
    [size<tab><digits>] gives those digits. *)
Theorem getEstimate_reads_last_line (pre digits : string) :
  digits <> ""%string ->
  all_digits digits = true ->
  match_size
    (lastLine (pre ++ String "010"
                 ("size" ++ String "009" (digits ++ String "010" ""))))
  = Some digits.
Proof.
  intros Hne Hdigits.
  pose proof (all_digits_no_space digits Hdigits) as Hns.
  set (line := ("size" ++ String "009" digits)%string).
  assert (Hline : has_char "010" line = false).
  { unfold line. cbn [append has_char Ascii.eqb Bool.eqb orb].
    now apply no_space_no_line_feed. }
  assert (Hend : trim_end line = line).
  { unfold line.
    change ("size" ++ String "009" digits)%string
      with (String "s" (String "i" (String "z" (String "e" (String "009" "")))) ++ digits)%string.
    rewrite trim_end_app; rewrite (trim_end_no_space digits Hns); auto. }
  unfold lastLine, trim.
  destruct (trim_start_before_line "s" ("ize" ++ String "009" (digits ++ String "010" ""))
              eq_refl pre) as (x & Hstart & Hx).
  change ("size" ++ String "009" (digits ++ String "010" ""))%string
    with (String "s" ("ize" ++ String "009" (digits ++ String "010" "")))%string.
  rewrite Hstart.
  replace (x ++ String "s" ("ize" ++ String "009" (digits ++ String "010" "")))%string
    with ((x ++ String "s" (String "i" (String "z" (String "e" (String "009" "")))))
          ++ (digits ++ String "010" ""))%string
    by (rewrite string_app_assoc; reflexivity).
  rewrite trim_end_app; rewrite (trim_end_line digits Hns Hne); auto.
  rewrite string_app_assoc.
  change (String "s" (String "i" (String "z" (String "e" (String "009" "")))) ++ digits)%string
    with line.
  rewrite (last_split_line x line Hline Hx).
  replace (trim_start line) with line by reflexivity.
  rewrite Hend. unfold match_size, strip_prefix, line.
  cbn [append String.prefix String.length Nat.sub String.substring].
  destruct (ascii_dec "s" "s"); [| congruence].
  destruct (ascii_dec "i" "i"); [| congruence].
  destruct (ascii_dec "z" "z"); [| congruence].
  destruct (ascii_dec "e" "e"); [| congruence].
  rewrite substring_all.
  replace (is_space "009") with true by reflexivity.
  cbn [trim_start]. replace (is_space "009") with true by reflexivity.
  rewrite (trim_start_no_space digits Hns).
  destruct digits; [congruence |]. now rewrite Hdigits.
Qed.

Lemma getEstimate_reads_last_line_witness :
  match_size
    (lastLine ("full	zones/abc@vm-migrate-estimate	104857600"
               ++ String "010" ("size" ++ String "009" ("104857600" ++ String "010" ""))))
  = Some "104857600"%string.
Proof.
  apply (getEstimate_reads_last_line
           "full	zones/abc@vm-migrate-estimate	104857600" "104857600");
    [discriminate | reflexivity].
Defined.

(* ================================================================== *)
(** * removeSyncSnapshots *)
(* ================================================================== *)





(** X15: without the marker file [removeSyncSnapshots] never works on
    renamed datasets: when it starts its runs, they are on the datasets
    of the vm as given, and the vm's uuid is the payload's. *)
Theorem override_needs_marker (payload : remove_payload) (datasets : list string) :
  removeSyncSnapshots payload false = remove_started datasets ->
  datasets = datasets_of (remove_vm payload) /\
  vm_own_uuid payload = remove_vm_uuid payload.
Proof.
  unfold removeSyncSnapshots.
  destruct (assert_uuid (remove_vm_uuid payload)) eqn:Huuid; [| discriminate].
  destruct (assert_uuid (target_vm_uuid payload)); [| discriminate].
  cbn [negb].
  destruct (strict_eq_str (String_of (remove_vm_uuid payload)) (vm_own_uuid payload))
    eqn:Heq; cbn [negb]; [| discriminate].
  intros [= <-]. split; [reflexivity |].
  destruct (remove_vm_uuid payload) as [| | n | u]; try discriminate.
  destruct (vm_own_uuid payload) as [| | m | v]; try discriminate.
  cbn in Heq. apply String.eqb_eq in Heq. now subst.
Qed.

Lemma override_needs_marker_witness :
  let vm := {| brand := JStr "joyent";
               zfs_filesystem := "zones/0e07ab09-d725-436f-884a-759fa3ed7183"%string;
               disks := None |} in
  let payload := {| remove_vm_uuid := JStr "0e07ab09-d725-436f-884a-759fa3ed7183";
                    remove_vm := vm;
                    vm_own_uuid := JStr "0e07ab09-d725-436f-884a-759fa3ed7183";
                    target_vm_uuid := JStr "1f18bc1a-e836-547a-995b-86a0b4fe8294" |} in
  datasets_of vm = datasets_of (remove_vm payload) /\
  vm_own_uuid payload = remove_vm_uuid payload.
Proof.
  intros vm payload. apply (override_needs_marker payload (datasets_of vm)).
  reflexivity.
Defined.

(* ================================================================== *)
(** * The arguments of the helpers and the dispatch of start *)
(* ================================================================== *)

Lemma uuid_shape_chars (s : string) :
  forall (groups : list nat) (left : nat),
    uuid_shape groups left s = true ->
    String.length s = (left + fold_right (fun g n => S (g + n)) 0 groups)%nat /\
    has_char "/" s = false /\ no_space s = true.
Proof.
  induction s as [| c s IH]; intros groups left Hs.
  - cbn [uuid_shape] in Hs. apply andb_true_iff in Hs as [Hl Hg].
    apply Nat.eqb_eq in Hl. destruct groups; [| discriminate].
    subst. repeat split.
  - cbn [uuid_shape] in Hs. destruct left as [| k].
    + destruct groups as [| g gs]; [discriminate |].
      apply andb_true_iff in Hs as [Hc Hs]. apply Ascii.eqb_eq in Hc. subst c.
      destruct (IH gs g Hs) as (Hlen & Hslash & Hsp).
      cbn [String.length fold_right has_char no_space].
      rewrite Hlen, Hslash, Hsp. repeat split.
    + apply andb_true_iff in Hs as [Hc Hs].
      destruct (IH groups k Hs) as (Hlen & Hslash & Hsp).
      cbn [String.length has_char no_space]. rewrite Hlen, Hslash, Hsp.
      assert (Hchar : Ascii.eqb c "/" = false /\ is_space c = false).
      { unfold is_hex, is_digit in Hc. unfold is_space.
        destruct (Ascii.eqb_spec c "/") as [-> | _]; [discriminate |].
        split; [reflexivity |].
        destruct (Nat.leb_spec 9 (nat_of_ascii c));
          destruct (Nat.leb_spec (nat_of_ascii c) 13);
          destruct (Nat.eqb_spec (nat_of_ascii c) 32); cbn; try reflexivity;
          exfalso;
          repeat match type of Hc with
                 | context [(?a <=? ?b)%nat] => destruct (Nat.leb_spec a b)
                 end; cbn in Hc; try discriminate; lia. }
      destruct Hchar as [-> ->]. repeat split.
Qed.

(** X16: whenever [setupFilesystem] runs its command, it is
    [zfs mount zones/<uuid>] for the payload's 36-character uuid, which
    holds no slash and no white space; the task is then called exactly
    once, finished if the command returns and failed if it throws. *)
Theorem setupFilesystem_mounts_zone_dataset (payload : payload_t)
    (outcome : sync_result) (command : string) (arguments : list string)
    (cs : list task_call) :
  setupFilesystem payload outcome = Ran command arguments cs ->
  exists u : string,
    vm_uuid payload = JStr u /\
    command = "/usr/sbin/zfs"%string /\
    arguments = ["mount"; "zones/" ++ u]%string /\
    String.length u = 36%nat /\ has_char "/" u = false /\ no_space u = true /\
    cs = [match outcome with
          | returned _ => finish NoValue
          | threw _ => fatal (Msg "undefined") None
          end].
Proof.
  unfold setupFilesystem.
  destruct (assert_uuid (vm_uuid payload)) eqn:Huuid; [| discriminate].
  cbn [negb]. destruct (vm_uuid payload) as [| | n | u]; try discriminate.
  cbn [assert_uuid] in Huuid.
  destruct (uuid_shape_chars u _ _ Huuid) as (Hlen & Hslash & Hsp).
  unfold try_execFileSync.
  destruct outcome; cbn; intros [= <- <- <-]; exists u; repeat split; auto.
Qed.

Lemma setupFilesystem_mounts_zone_dataset_witness :
  let payload := {| vm_uuid := JStr "0e07ab09-d725-436f-884a-759fa3ed7183";
                    value := JUndefined |} in
  exists u : string,
    vm_uuid payload = JStr u /\
    "/usr/sbin/zfs"%string = "/usr/sbin/zfs"%string /\
    ["mount"; "zones/0e07ab09-d725-436f-884a-759fa3ed7183"]%string
    = ["mount"; "zones/" ++ u]%string /\
    String.length u = 36%nat /\ has_char "/" u = false /\ no_space u = true /\
    [finish NoValue]
    = [match returned (Buffer_from "") with
       | returned _ => finish NoValue
       | threw _ => fatal (Msg "undefined") None
       end].
Proof.
  intro payload.
  apply (setupFilesystem_mounts_zone_dataset payload (returned (Buffer_from ""))
           "/usr/sbin/zfs"
           ["mount"; "zones/0e07ab09-d725-436f-884a-759fa3ed7183"]%string
           [finish NoValue]).
  reflexivity.
Defined.


Lemma prefix_app (a b : string) : String.prefix a (a ++ b) = true.
Proof.
  induction a as [| c a IH]; [now destruct b |].
  cbn [append String.prefix]. now destruct (ascii_dec c c).
Qed.

Lemma substring_skip (a b : string) :
  String.substring (String.length a)
                   (String.length (a ++ b) - String.length a) (a ++ b) = b.
Proof.
  induction a as [| c a IH].
  - cbn [append String.length]. rewrite Nat.sub_0_r. apply substring_all.
  - cbn [append String.length String.substring Nat.sub]. exact IH.
Qed.

Lemma replace_first_cons (pat rep : string) (c : ascii) (rest : string) :
  replace_first pat rep (String c rest)
  = if String.prefix pat (String c rest)
    then (rep ++ String.substring (String.length pat)
                   (String.length (String c rest) - String.length pat)
                   (String c rest))%string
    else String c (replace_first pat rep rest).
Proof. reflexivity. Qed.

Lemma replace_first_here (pat rep post : string) :
  replace_first pat rep (pat ++ post) = (rep ++ post)%string.
Proof.
  destruct (pat ++ post)%string as [| c rest] eqn:Hs.
  - destruct pat; [| discriminate]. cbn [append] in Hs. subst post. reflexivity.
  - rewrite replace_first_cons, <- Hs, prefix_app, substring_skip. reflexivity.
Qed.

Lemma prefix_two_hex (c1 c2 a b : ascii) (p s : string) :
  is_hex c1 = true -> is_hex c2 = true ->
  is_hex a = false \/ is_hex b = false ->
  String.prefix (String c1 (String c2 p)) (String a (String b s)) = false.
Proof.
  intros H1 H2 Hab. cbn [String.prefix].
  destruct (ascii_dec c1 a) as [-> |]; [| reflexivity].
  destruct (ascii_dec c2 b) as [-> |]; [| reflexivity].
  destruct Hab; congruence.
Qed.

Lemma replace_first_zones (o u post : string) :
  assert_uuid (JStr o) = true ->
  replace_first o u ("zones/" ++ o ++ post) = ("zones/" ++ u ++ post)%string.
Proof.
  intros Ho. cbn [assert_uuid] in Ho.
  destruct o as [| c1 o]; [discriminate |].
  cbn [uuid_shape] in Ho. apply andb_true_iff in Ho as [H1 Ho].
  destruct o as [| c2 o']; [discriminate |].
  cbn [uuid_shape] in Ho. apply andb_true_iff in Ho as [H2 _].
  set (pat := String c1 (String c2 o')).
  change ("zones/" ++ pat ++ post)%string
    with (String "z" (String "o" (String "n" (String "e" (String "s"
            (String "/" (pat ++ post))))))).
  change ("zones/" ++ u ++ post)%string
    with (String "z" (String "o" (String "n" (String "e" (String "s"
            (String "/" (u ++ post))))))).
  assert (Hno : forall a b s, is_hex a = false \/ is_hex b = false ->
                  replace_first pat u (String a (String b s))
                  = String a (replace_first pat u (String b s))).
  { intros a b s Hab. rewrite replace_first_cons.
    unfold pat at 1. now rewrite (prefix_two_hex c1 c2 a b o' s H1 H2 Hab). }
  rewrite !Hno by (left; reflexivity) || (right; reflexivity).
  unfold pat at 2. cbn [append]. fold pat.
  rewrite (Hno "/"%char c1 _ (or_introl eq_refl)).
  change (String c1 (String c2 (o' ++ post))) with (pat ++ post)%string.
  now rewrite replace_first_here.
Qed.

(** X18: with the marker file present, [removeSyncSnapshots] renames
    the datasets of an overridden vm: each dataset [zones/<vm.uuid>...]
    is worked on as [zones/<payload.vm_uuid>...]. *)
Theorem override_renames_datasets (payload : remove_payload) (o u : string)
    (posts : list string) :
  remove_vm_uuid payload = JStr u ->
  vm_own_uuid payload = JStr o ->
  assert_uuid (JStr u) = true ->
  assert_uuid (JStr o) = true ->
  assert_uuid (target_vm_uuid payload) = true ->
  o <> u ->
  datasets_of (remove_vm payload) = map (fun post => "zones/" ++ o ++ post)%string posts ->
  removeSyncSnapshots payload true
  = remove_started (map (fun post => "zones/" ++ u ++ post)%string posts).
Proof.
  intros Hu Ho Hvu Hvo Hvt Hne Hds. unfold removeSyncSnapshots.
  rewrite Hu, Ho, Hvu, Hvt, Hds. cbn [negb String_of strict_eq_str].
  destruct (String.eqb_spec u o) as [-> | _]; [congruence |].
  cbn [negb]. f_equal. rewrite map_map. apply map_ext.
  intros post. now apply replace_first_zones.
Qed.

Lemma override_renames_datasets_witness :
  let o := "0e07ab09-d725-436f-884a-759fa3ed7183"%string in
  let u := "1f18bc1a-e836-547a-995b-86a0b4fe8294"%string in
  let payload := {| remove_vm_uuid := JStr u;
                    remove_vm := {| brand := JStr "kvm";
                                    zfs_filesystem := ("zones/" ++ o)%string;
                                    disks := Some [("zones/" ++ o ++ "-disk0")%string] |};
                    vm_own_uuid := JStr o;
                    target_vm_uuid := JStr u |} in
  removeSyncSnapshots payload true
  = remove_started (map (fun post => "zones/" ++ u ++ post)%string [""; "-disk0"]%string).
Proof.
  intros o u payload.
  apply (override_renames_datasets payload o u [""; "-disk0"]%string);
    try reflexivity.
  discriminate.
Defined.

Lemma commands_destroySnapshots (results : nat -> exec_result)
    (snapshots : list string) :
  forall i : nat,
  exists k : nat,
    commands (destroySnapshots results i snapshots)
    = map deleteSnapshot_call (take k snapshots).
Proof.
  induction snapshots as [| s snapshots IH]; intros i.
  - now exists 0%nat.
  - cbn [destroySnapshots]. unfold deleteSnapshot.
    destruct (negb _); [now exists 0%nat |].
    destruct (negb _); [now exists 0%nat |].
    destruct (deleteSnapshot_done (results i)).
    + now exists 1%nat.
    + destruct (IH (S i)) as [k Hk]. exists (S k).
      change (commands (execFile (deleteSnapshot_call s)
                          :: destroySnapshots results (S i) snapshots))
        with (deleteSnapshot_call s
                :: commands (destroySnapshots results (S i) snapshots)).
      now rewrite Hk.
Qed.

(** X19: the commands of [destroySyncSnapshots] for one dataset are the
    listing, then deletes of names the listing printed, in its order and
    without gaps; when the listing fails nothing is deleted. *)
Theorem destroySyncSnapshots_deletes_listed (dataset : string) (listed : exec_result)
    (results : nat -> exec_result) :
  exists k : nat,
    commands (destroySyncSnapshots dataset listed results)
    = listSnapshots_call dataset
        :: map deleteSnapshot_call (take k (parse_snapshots (stdout listed))) /\
    (err listed <> None -> k = 0%nat).
Proof.
  unfold destroySyncSnapshots, listSnapshots_done.
  destruct (err listed) as [e |].
  - exists 0%nat. split; [reflexivity | auto].
  - destruct (commands_destroySnapshots results (parse_snapshots (stdout listed)) 0)
      as [k Hk].
    exists k. split; [| congruence].
    change (commands (execFile (listSnapshots_call dataset)
                        :: destroySnapshots results 0 (parse_snapshots (stdout listed))))
      with (listSnapshots_call dataset
              :: commands (destroySnapshots results 0 (parse_snapshots (stdout listed)))).
    now rewrite Hk.
Qed.

(* ================================================================== *)
(** * agentsshar_install.js *)
(* ================================================================== *)

(** X20: whenever the install task runs, it reports progress 50, then 75
    if the download succeeded, then 100; it calls the task exactly once,
    as its last effect; it finishes iff both the download and the
    install succeed, and it never installs after a failed download. *)
Theorem install_completes_once (req_id url UUID : jsval)
    (downloaded installed : option string) (es : list AgentsSharInstall.effect) :
  AgentsSharInstall.start req_id url UUID downloaded installed
  = AgentsSharInstall.Ran es ->
  AgentsSharInstall.progress_values es
  = match downloaded with Some _ => [50; 100] | None => [50; 75; 100] end /\
  (exists c : task_call,
     AgentsSharInstall.task_calls es = [c] /\
     List.last es (AgentsSharInstall.progress 0) = AgentsSharInstall.on_task c /\
     (c = finish NoValue <-> downloaded = None /\ installed = None)) /\
  (AgentsSharInstall.installs es = [] <-> downloaded <> None).
Proof.
  unfold AgentsSharInstall.start.
  destruct (assert_string req_id); [| discriminate].
  destruct (assert_string url); [| discriminate].
  destruct (assert_uuid UUID); [| discriminate].
  cbn [negb]. intros [= <-].
  destruct downloaded as [d |]; [| destruct installed as [i |]];
    (split; [reflexivity |]); (split; [eexists; split; [reflexivity |]; split;
      [reflexivity |] |]); cbn; split; try congruence; try discriminate;
    try (intros [? ?]; congruence); auto.
Qed.

Lemma install_completes_once_witness :
  let es := AgentsSharInstall.effects_of
              (AgentsSharInstall.start (JStr "r1") (JStr "http://10.0.0.1/agents.sh")
                 (JStr "0e07ab09-d725-436f-884a-759fa3ed7183")
                 None (Some "exit status 1"%string)) in
  AgentsSharInstall.progress_values es = [50; 75; 100] /\
  (exists c : task_call,
     AgentsSharInstall.task_calls es = [c] /\
     List.last es (AgentsSharInstall.progress 0) = AgentsSharInstall.on_task c /\
     (c = finish NoValue <-> @None string = None /\ Some "exit status 1"%string = None)) /\
  (AgentsSharInstall.installs es = [] <-> @None string <> None).
Proof.
  intro es.
  apply (install_completes_once (JStr "r1") (JStr "http://10.0.0.1/agents.sh")
           (JStr "0e07ab09-d725-436f-884a-759fa3ed7183")
           None (Some "exit status 1"%string) es).
  reflexivity.
Defined.

Lemma has_char_app (c : ascii) (a b : string) :
  has_char c (a ++ b) = has_char c a || has_char c b.
Proof.
  induction a as [| d a IH]; [reflexivity |].
  cbn [append has_char]. now rewrite IH, orb_assoc.
Qed.

Lemma basename_no_slash (p : string) : has_char "/" (path.basename p) = false.
Proof.
  unfold path.basename.
  pose proof (split_segments "/" (path.strip_trailing_slashes p)) as Hall.
  induction Hall as [| w ws Hw Hws IH]; [reflexivity |].
  destruct ws; [exact Hw | exact IH].
Qed.

Lemma join_var_tmp (name : string) :
  has_char "/" name = false ->
  path.join "/var/tmp/" (String "a" name)
  = ("/var/tmp/" ++ String "a" name)%string.
Proof.
  intros Hname.
  assert (Hsplit : split "/" ("/var/tmp/" ++ "/" ++ String "a" name)
                   = [""; "var"; "tmp"; ""; String "a" name]%string).
  { change ("/var/tmp/" ++ "/" ++ String "a" name)%string
      with ("/var/tmp/" ++ String "/" (String "a" name))%string.
    rewrite split_app, (split_nosep "/" (String "a" name)); [reflexivity |].
    cbn [has_char]. now rewrite Hname. }
  unfold path.join.
  change (path.normalize ("/var/tmp/" ++ "/" ++ String "a" name)
          = ("/var/tmp/" ++ String "a" name)%string).
  unfold path.normalize, path.ends_with_slash.
  change ("/var/tmp/" ++ "/" ++ String "a" name)%string
    with (String "/" ("var/tmp/" ++ "/" ++ String "a" name))%string at 1.
  cbv iota beta zeta.
  change (String "/" ("var/tmp/" ++ "/" ++ String "a" name))%string
    with ("/var/tmp/" ++ "/" ++ String "a" name)%string.
  rewrite Hsplit. reflexivity.
Qed.

(** X21: the downloaded shar is always a file directly in [/var/tmp]:
    whatever the url is, for a server uuid that passes the assertion
    [sharFile] is [/var/tmp/agentsshar.download.<uuid><basename>], and
    the base name of the url holds no slash. *)
Theorem sharFile_stays_in_var_tmp (UUID url : string) :
  assert_uuid (JStr UUID) = true ->
  AgentsSharInstall.sharFile UUID url
  = ("/var/tmp/agentsshar.download." ++ UUID ++ path.basename url)%string /\
  has_char "/" ("agentsshar.download." ++ UUID ++ path.basename url) = false.
Proof.
  intros Huuid. cbn [assert_uuid] in Huuid.
  destruct (uuid_shape_chars UUID _ _ Huuid) as (_ & Hslash & _).
  assert (Hname : has_char "/" ("gentsshar.download." ++ UUID ++ path.basename url)
                  = false).
  { rewrite !has_char_app, Hslash, basename_no_slash. reflexivity. }
  split.
  - unfold AgentsSharInstall.sharFile.
    change ("agentsshar.download." ++ UUID ++ path.basename url)%string
      with (String "a" ("gentsshar.download." ++ UUID ++ path.basename url)).
    now rewrite join_var_tmp.
  - change ("agentsshar.download." ++ UUID ++ path.basename url)%string
      with (String "a" ("gentsshar.download." ++ UUID ++ path.basename url)).
    cbn [has_char]. now rewrite Hname.
Qed.

Lemma sharFile_stays_in_var_tmp_witness :
  AgentsSharInstall.sharFile "0e07ab09-d725-436f-884a-759fa3ed7183"
    "http://10.0.0.1/../../etc/agents.sh"
  = ("/var/tmp/agentsshar.download." ++ "0e07ab09-d725-436f-884a-759fa3ed7183"
       ++ path.basename "http://10.0.0.1/../../etc/agents.sh")%string /\
  has_char "/" ("agentsshar.download." ++ "0e07ab09-d725-436f-884a-759fa3ed7183"
                  ++ path.basename "http://10.0.0.1/../../etc/agents.sh") = false.
Proof.
  apply (sharFile_stays_in_var_tmp "0e07ab09-d725-436f-884a-759fa3ed7183"
           "http://10.0.0.1/../../etc/agents.sh").
  reflexivity.
Defined.

(* ================================================================== *)
(** * run-servers.js *)
(* ================================================================== *)

Lemma hex_not_dash (c : ascii) : is_hex c = true -> Ascii.eqb c "-" = false.
Proof.
  intros Hc. destruct (Ascii.eqb_spec c "-") as [-> |]; [discriminate | reflexivity].
Qed.

Lemma split_uuid_shape (s : string) :
  forall (g : nat) (gs : list nat) (left : nat),
    uuid_shape (g :: gs) left s = true ->
    exists rest : list string,
      split "-" s = String.substring 0 left s :: rest /\
      String.length (String.substring 0 left s) = left /\
      has_char "-" (String.substring 0 left s) = false.
Proof.
  induction s as [| c s IH]; intros g gs left Hs.
  - cbn [uuid_shape] in Hs. now rewrite andb_false_r in Hs.
  - cbn [uuid_shape] in Hs. destruct left as [| k].
    + apply andb_true_iff in Hs as [Hc _].
      rewrite split_cons, Hc. now eexists.
    + apply andb_true_iff in Hs as [Hc Hs].
      destruct (IH g gs k Hs) as (rest & Hsplit & Hlen & Hdash).
      rewrite split_cons, (hex_not_dash c Hc), Hsplit.
      exists rest. cbn [String.substring String.length has_char].
      now rewrite Hlen, Hdash, (hex_not_dash c Hc).
Qed.

(** X22: for a server uuid that passes the assertion of [runServer],
    [inst] is its first group of eight hexadecimal digits, and the log
    name is [cn-agent-] followed by them. *)
Theorem logname_is_first_group (serverUuid : string) :
  assert_uuid (JStr serverUuid) = true ->
  RunServers.inst serverUuid = String.substring 0 8 serverUuid /\
  String.length (RunServers.inst serverUuid) = 8%nat /\
  has_char "-" (RunServers.inst serverUuid) = false /\
  RunServers.logname serverUuid
  = Some ("cn-agent-" ++ String.substring 0 8 serverUuid)%string.
Proof.
  intros Huuid. unfold RunServers.logname. rewrite Huuid.
  cbn [assert_uuid] in Huuid.
  destruct (split_uuid_shape serverUuid _ _ _ Huuid) as (rest & Hsplit & Hlen & Hdash).
  assert (Hinst : RunServers.inst serverUuid = String.substring 0 8 serverUuid).
  { unfold RunServers.inst. now rewrite Hsplit. }
  rewrite Hinst. auto.
Qed.

Lemma logname_is_first_group_witness :
  RunServers.inst "0e07ab09-d725-436f-884a-759fa3ed7183" = "0e07ab09"%string /\
  String.length (RunServers.inst "0e07ab09-d725-436f-884a-759fa3ed7183") = 8%nat /\
  has_char "-" (RunServers.inst "0e07ab09-d725-436f-884a-759fa3ed7183") = false /\
  RunServers.logname "0e07ab09-d725-436f-884a-759fa3ed7183"
  = Some "cn-agent-0e07ab09"%string.
Proof.
  apply (logname_is_first_group "0e07ab09-d725-436f-884a-759fa3ed7183").
  reflexivity.
Defined.

(* ================================================================== *)
(** * The vmadm helpers and the errors of zfs *)
(* ================================================================== *)

(** X24: whenever [setDoNotInventory] or [setAutoboot] runs its command,
    it is [vmadm update <uuid> <key>=<value>] with exactly these three
    arguments, for the payload's 36-character uuid and its string value
    as given; the task is then called exactly once, finished if the
    command returns and failed if it throws. *)
Theorem vmadm_helpers_update_one_property (payload : payload_t)
    (outcome : sync_result) (key command : string) (arguments : list string)
    (cs : list task_call) :
  (key = "do_not_inventory"%string /\
   setDoNotInventory payload outcome = Ran command arguments cs) \/
  (key = "autoboot"%string /\
   setAutoboot payload outcome = Ran command arguments cs) ->
  exists u v : string,
    vm_uuid payload = JStr u /\ value payload = JStr v /\
    command = "/usr/sbin/vmadm"%string /\
    arguments = ["update"; u; key ++ "=" ++ v]%string /\
    String.length u = 36%nat /\ no_space u = true /\
    cs = [match outcome with
          | returned _ => finish NoValue
          | threw _ => fatal (Msg "undefined") None
          end].
Proof.
  unfold setDoNotInventory, setAutoboot.
  destruct (assert_uuid (vm_uuid payload)) eqn:Huuid;
    [| intros [[_ H] | [_ H]]; discriminate].
  destruct (assert_string (value payload)) eqn:Hvalue;
    [| intros [[_ H] | [_ H]]; discriminate].
  cbn [negb]. destruct (vm_uuid payload) as [| | n | u]; try discriminate.
  destruct (value payload) as [| | m | v]; try discriminate.
  cbn [assert_uuid] in Huuid.
  destruct (uuid_shape_chars u _ _ Huuid) as (Hlen & _ & Hsp).
  unfold try_execFileSync.
  intros [[-> H] | [-> H]]; destruct outcome; cbn in H;
    injection H as <- <- <-; exists u, v; repeat split; auto.
Qed.

Lemma vmadm_helpers_update_one_property_witness :
  let payload := {| vm_uuid := JStr "0e07ab09-d725-436f-884a-759fa3ed7183";
                    value := JStr "true" |} in
  exists u v : string,
    vm_uuid payload = JStr u /\ value payload = JStr v /\
    "/usr/sbin/vmadm"%string = "/usr/sbin/vmadm"%string /\
    ["update"; "0e07ab09-d725-436f-884a-759fa3ed7183"; "autoboot=true"]%string
    = ["update"; u; "autoboot" ++ "=" ++ v]%string /\
    String.length u = 36%nat /\ no_space u = true /\
    [finish NoValue]
    = [match returned (Buffer_from "") with
       | returned _ => finish NoValue
       | threw _ => fatal (Msg "undefined") None
       end].
Proof.
  intro payload.
  apply (vmadm_helpers_update_one_property payload (returned (Buffer_from ""))
           "autoboot" "/usr/sbin/vmadm"
           ["update"; "0e07ab09-d725-436f-884a-759fa3ed7183"; "autoboot=true"]%string
           [finish NoValue]).
  right. split; reflexivity.
Defined.

(** X25: a delete that was killed at its timeout is reported as
    [zfs snapshot destroy failure: Process killed due to timeout.],
    whatever the message of the error was, with the command's stderr
    attached; unless that stderr holds the no-snapshots text, in which
    case the kill is passed over like any other failure. *)
Theorem killed_delete_reports_timeout (r : exec_result) (e : exec_error) :
  err r = Some e ->
  killed e = true ->
  deleteSnapshot_done r
  = if indexOf (stderr r) NO_SNAPSHOTS =? -1
    then Some {| e_message :=
                   "zfs snapshot destroy failure: Process killed due to timeout.";
                 e_stderr := Some (stderr r) |}
    else None.
Proof.
  intros He Hk. unfold deleteSnapshot_done, zfsError, zfsErrorStr.
  now rewrite He, Hk.
Qed.

Lemma killed_delete_reports_timeout_witness :
  let e := {| killed := true; emessage := "Command failed: zfs destroy"%string |} in
  let r := {| err := Some e; stdout := ""%string; stderr := ""%string |} in
  deleteSnapshot_done r
  = if indexOf (stderr r) NO_SNAPSHOTS =? -1
    then Some {| e_message :=
                   "zfs snapshot destroy failure: Process killed due to timeout.";
                 e_stderr := Some (stderr r) |}
    else None.
Proof.
  intros e r. apply (killed_delete_reports_timeout r e); reflexivity.
Defined.
